(** * Sussuros: the peer connection manager of src/SussurosClass.js

    A shallow embedding of the [Sussuros] class and of the socket handler of
    src/utils/hooks.js.  Every method is a computation in a state monad with
    JavaScript exceptions: a computation that throws keeps the mutations it
    made before the throw, as the JavaScript does. *)

From stdpp Require Import gmap strings list fin_maps.

Open Scope string_scope.
Open Scope list_scope.

(** ** JavaScript values the class handles *)

(** An exception.  The only one the class itself can raise is the TypeError
    of a method call on [undefined] (the result of [Map.get] on a missing
    key); [HostError] stands for an exception raised by the host AV client. *)
Inductive JsError :=
  | TypeError (what : string)
  | HostError (what : string).

Inductive Outcome (A : Type) :=
  | Ret (a : A)
  | Throw (e : JsError).
Arguments Ret {A} a.
Arguments Throw {A} e.

(** A MediaStreamTrack: [enabled] is the mute switch, [readyState] becomes
    [ended] once [stop()] was called. *)
Inductive ReadyState := live | ended.

Record MediaStreamTrack := {
  enabled : bool;
  readyState : ReadyState
}.

Definition stop (t : MediaStreamTrack) : MediaStreamTrack :=
  {| enabled := enabled t; readyState := ended |}.

Definition set_enabled (b : bool) (t : MediaStreamTrack) : MediaStreamTrack :=
  {| enabled := b; readyState := readyState t |}.

(** The SimplePeer transport is a black box; the class reads [connected],
    passes [initiator] to the constructor and calls [signal], [send],
    [addStream] and [destroy]. *)
Record SimplePeer := {
  initiator : bool;
  connected : bool;
  destroyed : bool
}.

Definition destroy (p : SimplePeer) : SimplePeer :=
  {| initiator := initiator p; connected := connected p; destroyed := true |}.

(** An <audio> element: what [_setAudioElementStream] touches. *)
Record AudioElement := {
  hasSrcObject : bool;
  srcObject : option nat;
  src : option nat;
  playing : bool
}.

(** A message on the [module.sussuros] socket namespace. *)
Record SocketMsg := {
  action : string;
  userId : string;
  data : option string;
  broadcasting : option bool
}.

Inductive Level := debug | info | warn | error.

Inductive PeerCall :=
  | CallSignal (d : option string)
  | CallSend (d : string)
  | CallAddStream (stream : nat)
  | CallDestroy.

(** The calls that leave the class, in the order they are made. *)
Inductive Effect :=
  | Emit (m : SocketMsg)
  | Log (l : Level) (msg : string)
  | Notify (msg : string)
  | Render
  | GetUserMedia (uid : string)
  | Transport (handle : nat) (c : PeerCall).

(** ** A JavaScript [Map] that is iterated: insertion order is kept *)

Module JsMap.
Section Ops.
Context {V : Type}.
Implicit Types (m : list (string * V)) (k : string).

Fixpoint get k m : option V :=
    match m with
    | [] => None
    | (k', v) :: m' => if decide (k = k') then Some v else get k m'
    end.

Definition has k m : bool := bool_decide (is_Some (get k m)).

Fixpoint set k (v : V) m : list (string * V) :=
    match m with
    | [] => [(k, v)]
    | (k', v') :: m' =>
        if decide (k = k') then (k, v) :: m' else (k', v') :: set k v m'
    end.

Fixpoint delete k m : list (string * V) :=
    match m with
    | [] => []
    | (k', v') :: m' =>
        if decide (k = k') then delete k m' else (k', v') :: delete k m'
    end.

Definition keys m : list string := m.*1.
End Ops.
End JsMap.

(** ** The state *)

(** The fields of the class instance.  [peers] is the one table the class
    iterates ([closeAllPeers]); the others are only looked up by key.  The
    tables hold references: a handle or stream number names an object of the
    [Heap].  [_savedMutedFlag] and [_savedBroadcasting] are [undefined]
    ([None]) until [_disableAvClient] assigns them. *)
Record Sussuros := {
  peers : list (string * nat);
  audioElements : gmap string AudioElement;
  remoteStreams : gmap string nat;
  localStreams : gmap string nat;
  talkieButtons : gmap string (gset string);
  savedAvEnabledState : bool;
  _savedMutedFlag : option bool;
  _savedBroadcasting : option bool
}.

(** The objects the tables refer to. *)
Record Heap := {
  handles : gmap nat SimplePeer;
  streams : gmap nat (list MediaStreamTrack);
  nextHandle : nat;
  nextStream : nat
}.

(** The host AV client ([game.webrtc.client]), the shared always-on channel:
    [isVoiceAlways] is its voice mode, [exposesBroadcasting] says whether it
    has a boolean [broadcasting] property, [hasToggleBroadcast] whether it
    has the [toggleBroadcast] method, [toggleThrows] whether that method
    raises, and [broadcastFlag] is the broadcast switch the method sets. *)
Record AvClient := {
  isVoiceAlways : bool;
  exposesBroadcasting : bool;
  hasToggleBroadcast : bool;
  toggleThrows : bool;
  broadcastFlag : bool
}.

(** What the class reads from the [game] global: the local user id, the two
    module settings, and the RTC settings [users.<id>.muted] and
    [audioSrc]. *)
Record Host := {
  localUser : string;
  disableAvClientSetting : bool;
  toggleBroadcastSetting : bool;
  muted : bool;
  audioSrc : option string;
  avClient : option AvClient
}.

Record World := {
  this : Sussuros;
  heap : Heap;
  game : Host;
  pending : list string;
  trace : list Effect
}.

Definition with_this (f : Sussuros → Sussuros) (w : World) : World :=
  {| this := f (this w); heap := heap w; game := game w;
     pending := pending w; trace := trace w |}.

Definition with_heap (f : Heap → Heap) (w : World) : World :=
  {| this := this w; heap := f (heap w); game := game w;
     pending := pending w; trace := trace w |}.

Definition with_game (f : Host → Host) (w : World) : World :=
  {| this := this w; heap := heap w; game := f (game w);
     pending := pending w; trace := trace w |}.

Definition with_pending (f : list string → list string) (w : World) : World :=
  {| this := this w; heap := heap w; game := game w;
     pending := f (pending w); trace := trace w |}.

Definition with_trace (f : list Effect → list Effect) (w : World) : World :=
  {| this := this w; heap := heap w; game := game w;
     pending := pending w; trace := f (trace w) |}.

Definition set_peers (v : list (string * nat)) (t : Sussuros) : Sussuros :=
  {| peers := v; audioElements := audioElements t;
     remoteStreams := remoteStreams t; localStreams := localStreams t;
     talkieButtons := talkieButtons t;
     savedAvEnabledState := savedAvEnabledState t;
     _savedMutedFlag := _savedMutedFlag t;
     _savedBroadcasting := _savedBroadcasting t |}.

Definition set_audioElements (v : gmap string AudioElement) (t : Sussuros)
  : Sussuros :=
  {| peers := peers t; audioElements := v;
     remoteStreams := remoteStreams t; localStreams := localStreams t;
     talkieButtons := talkieButtons t;
     savedAvEnabledState := savedAvEnabledState t;
     _savedMutedFlag := _savedMutedFlag t;
     _savedBroadcasting := _savedBroadcasting t |}.

Definition set_remoteStreams (v : gmap string nat) (t : Sussuros) : Sussuros :=
  {| peers := peers t; audioElements := audioElements t;
     remoteStreams := v; localStreams := localStreams t;
     talkieButtons := talkieButtons t;
     savedAvEnabledState := savedAvEnabledState t;
     _savedMutedFlag := _savedMutedFlag t;
     _savedBroadcasting := _savedBroadcasting t |}.

Definition set_localStreams (v : gmap string nat) (t : Sussuros) : Sussuros :=
  {| peers := peers t; audioElements := audioElements t;
     remoteStreams := remoteStreams t; localStreams := v;
     talkieButtons := talkieButtons t;
     savedAvEnabledState := savedAvEnabledState t;
     _savedMutedFlag := _savedMutedFlag t;
     _savedBroadcasting := _savedBroadcasting t |}.

Definition set_talkieButtons (v : gmap string (gset string)) (t : Sussuros)
  : Sussuros :=
  {| peers := peers t; audioElements := audioElements t;
     remoteStreams := remoteStreams t; localStreams := localStreams t;
     talkieButtons := v;
     savedAvEnabledState := savedAvEnabledState t;
     _savedMutedFlag := _savedMutedFlag t;
     _savedBroadcasting := _savedBroadcasting t |}.

Definition set_savedAvEnabledState (v : bool) (t : Sussuros) : Sussuros :=
  {| peers := peers t; audioElements := audioElements t;
     remoteStreams := remoteStreams t; localStreams := localStreams t;
     talkieButtons := talkieButtons t;
     savedAvEnabledState := v;
     _savedMutedFlag := _savedMutedFlag t;
     _savedBroadcasting := _savedBroadcasting t |}.

Definition set_saved (m b : option bool) (t : Sussuros) : Sussuros :=
  {| peers := peers t; audioElements := audioElements t;
     remoteStreams := remoteStreams t; localStreams := localStreams t;
     talkieButtons := talkieButtons t;
     savedAvEnabledState := savedAvEnabledState t;
     _savedMutedFlag := m;
     _savedBroadcasting := b |}.

Definition set_handles (v : gmap nat SimplePeer) (h : Heap) : Heap :=
  {| handles := v; streams := streams h;
     nextHandle := nextHandle h; nextStream := nextStream h |}.

Definition set_streams (v : gmap nat (list MediaStreamTrack)) (h : Heap)
  : Heap :=
  {| handles := handles h; streams := v;
     nextHandle := nextHandle h; nextStream := nextStream h |}.

Definition set_muted (v : bool) (g : Host) : Host :=
  {| localUser := localUser g;
     disableAvClientSetting := disableAvClientSetting g;
     toggleBroadcastSetting := toggleBroadcastSetting g;
     muted := v; audioSrc := audioSrc g; avClient := avClient g |}.

Definition set_avClient (v : option AvClient) (g : Host) : Host :=
  {| localUser := localUser g;
     disableAvClientSetting := disableAvClientSetting g;
     toggleBroadcastSetting := toggleBroadcastSetting g;
     muted := muted g; audioSrc := audioSrc g; avClient := v |}.

Definition set_broadcastFlag (b : bool) (c : AvClient) : AvClient :=
  {| isVoiceAlways := isVoiceAlways c;
     exposesBroadcasting := exposesBroadcasting c;
     hasToggleBroadcast := hasToggleBroadcast c;
     toggleThrows := toggleThrows c;
     broadcastFlag := b |}.

(** ** The monad: state and exceptions *)

Definition M (A : Type) : Type := World → World * Outcome A.

Definition ret {A} (a : A) : M A := fun w => (w, Ret a).

Definition throw {A} (e : JsError) : M A := fun w => (w, Throw e).

Definition bind {A B} (m : M A) (k : A → M B) : M B :=
  fun w =>
    match m w with
    | (w', Ret a) => k a w'
    | (w', Throw e) => (w', Throw e)
    end.

(** [try { m } catch (e) { h e }] *)
Definition try_catch {A} (m : M A) (h : JsError → M A) : M A :=
  fun w =>
    match m w with
    | (w', Ret a) => (w', Ret a)
    | (w', Throw e) => h e w'
    end.

Definition gets {A} (f : World → A) : M A := fun w => (w, Ret (f w)).

Definition modify (f : World → World) : M unit := fun w => (f w, Ret tt).

Notation "'do' x <- m ; k" := (bind m (fun x => k))
  (at level 10, x name, m at level 100, k at level 200).
Notation "m >> k" := (bind m (fun _ => k))
  (at level 100, k at level 200, right associativity).

(** [when c m] is [if (c) { m }]. *)
Definition when (c : bool) (m : M unit) : M unit := if c then m else ret tt.

Definition effect (e : Effect) : M unit :=
  modify (with_trace (fun t => t ++ [e])).

Definition log (l : Level) (msg : string) : M unit := effect (Log l msg).

(** [game.socket.emit("module.sussuros", m)] *)
Definition socket_emit (m : SocketMsg) : M unit := effect (Emit m).

(** JavaScript's short-circuit [a || b] and [a && b]. *)
Definition or_else (a b : M bool) : M bool :=
  do x <- a; if x then ret true else b.

Definition and_then (a b : M bool) : M bool :=
  do x <- a; if x then b else ret false.

(** ** Primitive accesses *)

Definition undefined_call (what : string) : JsError :=
  TypeError ("Cannot read properties of undefined: " ++ what)%string.

(** [this.peers.has(userId)] *)
Definition peers_has (uid : string) : M bool :=
  gets (fun w => JsMap.has uid (peers (this w))).

(** [this.peers.get(userId)] *)
Definition session (w : World) (uid : string) : option nat :=
  JsMap.get uid (peers (this w)).

(** The [connected] property of the handle [h]. *)
Definition handle_connected (w : World) (h : nat) : bool :=
  from_option connected false (handles (heap w) !! h).

(** [this.peers.get(userId).connected]: a TypeError when the table has no
    entry. *)
Definition peer_connected (uid : string) : M bool := fun w =>
  match session w uid with
  | None => (w, Throw (undefined_call "connected"))
  | Some h => (w, Ret (handle_connected w h))
  end.

(** [this.peers.get(userId).signal(d)], [.send(d)], [.addStream(s)]. *)
Definition peer_call (uid : string) (c : PeerCall) : M unit := fun w =>
  match session w uid with
  | None => (w, Throw (undefined_call "peers.get"))
  | Some h => effect (Transport h c) w
  end.

(** [this.peers.get(userId).destroy()] on the handle [h]. *)
Definition peer_destroy (h : nat) : M unit :=
  modify (with_heap (fun hp => set_handles (alter destroy h (handles hp)) hp))
  >> effect (Transport h CallDestroy).

(** [new SimplePeer({initiator, stream: false})] *)
Definition new_SimplePeer (isInitiator : bool) : M nat := fun w =>
  let h := nextHandle (heap w) in
  let p := {| initiator := isInitiator; connected := false;
              destroyed := false |} in
  (with_heap (fun hp =>
     {| handles := <[h := p]> (handles hp); streams := streams hp;
        nextHandle := S h; nextStream := nextStream hp |}) w, Ret h).

(** The MediaStream the browser hands over when a capture resolves. *)
Definition new_MediaStream (tracks : list MediaStreamTrack) : M nat := fun w =>
  let sid := nextStream (heap w) in
  (with_heap (fun hp =>
     {| handles := handles hp; streams := <[sid := tracks]> (streams hp);
        nextHandle := nextHandle hp; nextStream := S sid |}) w, Ret sid).

(** [stream.getTracks()] *)
Definition getTracks (w : World) (sid : nat) : list MediaStreamTrack :=
  default [] (streams (heap w) !! sid).

(** [stream.getTracks().forEach(t => f t)] for [f] a mutation of the track *)
Definition forEach_track (sid : nat) (f : MediaStreamTrack → MediaStreamTrack)
  : M unit :=
  modify (with_heap (fun hp => set_streams (alter (map f) sid (streams hp)) hp)).

(** [this.talkieButtons.get(userId).addClass(c)]: a TypeError when the user
    has no button. *)
Definition button_addClass (uid c : string) : M unit := fun w =>
  match talkieButtons (this w) !! uid with
  | None => (w, Throw (undefined_call "addClass"))
  | Some cls =>
      (with_this (fun t =>
         set_talkieButtons (<[uid := cls ∪ {[c]}]> (talkieButtons t)) t) w,
       Ret tt)
  end.

(** [this.talkieButtons.get(userId).removeClass(c)] *)
Definition button_removeClass (uid c : string) : M unit := fun w =>
  match talkieButtons (this w) !! uid with
  | None => (w, Throw (undefined_call "removeClass"))
  | Some cls =>
      (with_this (fun t =>
         set_talkieButtons (<[uid := cls ∖ {[c]}]> (talkieButtons t)) t) w,
       Ret tt)
  end.

(** [avClient.toggleBroadcast?.(b)] on the client found by the caller. *)
Definition av_toggleBroadcast (b : bool) : M unit := fun w =>
  match avClient (game w) with
  | None => (w, Ret tt)
  | Some av =>
      if hasToggleBroadcast av then
        if toggleThrows av then (w, Throw (HostError "toggleBroadcast"))
        else (with_game (set_avClient (Some (set_broadcastFlag b av))) w,
              Ret tt)
      else (w, Ret tt)
  end.

(** ** The methods of the class *)

Definition setupPeer (uid : string) (isInitiator : bool) : M unit :=
  do h <- new_SimplePeer isInitiator;
  modify (with_this (fun t => set_peers (JsMap.set uid h (peers t)) t)) >>
  effect Render.

Definition signal (uid : string) (d : option string) : M unit :=
  do present <- peers_has uid;
  when (negb present) (setupPeer uid false) >>
  peer_call uid (CallSignal d).

Definition initPeer (uid : string) : M unit :=
  do fresh <- or_else (do present <- peers_has uid; ret (negb present))
                      (do c <- peer_connected uid; ret (negb c));
  if fresh then setupPeer uid true
  else log warn "initPeer: Peer already exists for".

Definition send (uid : string) (d : string) : M unit :=
  do ok <- and_then (peers_has uid) (peer_connected uid);
  when ok (peer_call uid (CallSend d)).

Definition closePeer (uid : string) : M unit :=
  modify (with_this (fun t =>
    set_audioElements (delete uid (audioElements t)) t)) >>
  do rs <- gets (fun w => remoteStreams (this w) !! uid);
  match rs with Some sid => forEach_track sid stop | None => ret tt end >>
  modify (with_this (fun t =>
    set_remoteStreams (delete uid (remoteStreams t)) t)) >>
  do ls <- gets (fun w => localStreams (this w) !! uid);
  match ls with Some sid => forEach_track sid stop | None => ret tt end >>
  button_removeClass uid "sussuros-stream-broadcasting" >>
  button_removeClass uid "sussuros-stream-connected" >>
  modify (with_this (fun t =>
    set_localStreams (delete uid (localStreams t)) t)) >>
  do ph <- gets (fun w => session w uid);
  match ph with Some h => peer_destroy h | None => ret tt end >>
  button_removeClass uid "sussuros-peer-connected" >>
  modify (with_this (fun t => set_peers (JsMap.delete uid (peers t)) t)).

Definition isLocalStreamEnabled (uid : string) : M bool :=
  gets (fun w =>
    match localStreams (this w) !! uid with
    | None => false
    | Some sid => existsb enabled (getTracks w sid)
    end).

(** The always-on branch of [_disableAvClient], the body of its [try]:
    [true] when the branch was taken and the method returned from it. *)
Definition alwaysOnBranch (disable : bool) : M bool :=
  do c <- gets (fun w => avClient (game w));
  match c with
  | None => ret false
  | Some av =>
      if isVoiceAlways av then
        (if disable then
           do m <- gets (fun w => muted (game w));
           modify (with_this (fun t =>
             set_saved (Some m) (_savedBroadcasting t) t)) >>
           modify (with_this (fun t =>
             set_saved (_savedMutedFlag t)
               (Some (if exposesBroadcasting av then broadcastFlag av
                      else negb m)) t)) >>
           av_toggleBroadcast false
         else
           do savedMutedFlag <- gets (fun w => _savedMutedFlag (this w));
           do savedBroadcasting <- gets (fun w => _savedBroadcasting (this w));
           match savedBroadcasting with
           | Some b => av_toggleBroadcast b
           | None =>
               let shouldBroadcast :=
                 if default false savedMutedFlag then false else true in
               av_toggleBroadcast shouldBroadcast
           end >>
           modify (with_this (set_saved None None))) >>
        ret true
      else ret false
  end.

(** The default branch of [_disableAvClient]: mute or unmute the AV
    microphone. *)
Definition muteBranch (disable : bool) : M unit :=
  do m <- gets (fun w => muted (game w));
  let isAudioEnabled := negb m in
  if disable then
    modify (with_this (set_savedAvEnabledState isAudioEnabled)) >>
    when isAudioEnabled
      (log debug "Disabling AV client audio" >>
       modify (with_game (set_muted true)))
  else
    do saved <- gets (fun w => savedAvEnabledState (this w));
    when (negb (eqb saved isAudioEnabled))
      (log debug "Enabling AV client audio" >>
       modify (with_game (set_muted (negb saved)))).

Definition _disableAvClient (disable : bool) : M unit :=
  do g <- gets game;
  if negb (disableAvClientSetting g) || toggleBroadcastSetting g then ret tt
  else
    do returned <- try_catch (alwaysOnBranch disable)
                     (fun _ => log error "Error toggling AV broadcast" >>
                               ret false);
    if returned then ret tt else muteBranch disable.

Definition enableLocalStream (uid : string) (enable : bool) : M unit :=
  do hasPeer <- peers_has uid;
  do hasStream <- gets (fun w =>
                    bool_decide (is_Some (localStreams (this w) !! uid)));
  if negb hasPeer || negb hasStream then
    when (hasPeer && enable)
      (log warn "SUSSURROS.captureErrorAudio" >>
       effect (Notify "SUSSURROS.captureErrorAudio"))
  else
    do cur <- isLocalStreamEnabled uid;
    when (negb (eqb cur enable))
      (do ls <- gets (fun w => localStreams (this w) !! uid);
       match ls with
       | Some sid => forEach_track sid (set_enabled enable)
       | None => ret tt
       end >>
       socket_emit {| action := "peer-broadcasting"; userId := uid;
                      data := None; broadcasting := Some enable |} >>
       _disableAvClient enable) >>
    if enable then button_addClass uid "sussuros-stream-broadcasting"
    else button_removeClass uid "sussuros-stream-broadcasting".

Definition toggleLocalStream (uid : string) : M unit :=
  do cur <- isLocalStreamEnabled uid;
  enableLocalStream uid (negb cur).

(** [this.peers.forEach(body)]: the entries are visited in insertion order;
    an entry deleted before its turn is not visited.  [ks] is the list of
    keys when the iteration starts: the only body used, in [closeAllPeers],
    never adds an entry. *)
Fixpoint forEach_peers (ks : list string) (body : string → M unit) : M unit :=
  match ks with
  | [] => ret tt
  | k :: ks' =>
      (do present <- peers_has k; when present (body k)) >>
      forEach_peers ks' body
  end.

(** The callback [closeAllPeers] passes to [forEach]. *)
Definition closeOne (uid : string) : M unit :=
  log debug "Closing peer (" >>
  socket_emit {| action := "peer-close"; userId := uid;
                 data := None; broadcasting := None |} >>
  closePeer uid.

Definition closeAllPeers : M unit :=
  do ks <- gets (fun w => JsMap.keys (peers (this w)));
  forEach_peers ks closeOne.

Definition _remoteBroadcasting (uid : string) (b : option bool) : M unit :=
  if default false b then button_addClass uid "sussuros-stream-receiving"
  else button_removeClass uid "sussuros-stream-receiving".

Definition _setAudioElementStream (uid : string) : M unit :=
  do audioElement <- gets (fun w => audioElements (this w) !! uid);
  do stream <- gets (fun w => remoteStreams (this w) !! uid);
  match audioElement, stream with
  | Some el, Some sid =>
      let el' :=
        if hasSrcObject el then
          {| hasSrcObject := true; srcObject := Some sid; src := src el;
             playing := true |}
        else
          {| hasSrcObject := false; srcObject := srcObject el;
             src := Some sid; playing := true |} in
      modify (with_this (fun t =>
        set_audioElements (<[uid := el']> (audioElements t)) t))
  | _, _ => ret tt
  end.

(** The part of [_createUserAudio] both branches share once a stream is in
    [localStreams]. *)
Definition attachLocalStream (uid : string) : M unit :=
  log debug "Adding user audio to stream (" >>
  do ls <- gets (fun w => localStreams (this w) !! uid);
  peer_call uid (CallAddStream (default 0 ls)) >>
  do m <- gets (fun w => muted (game w));
  modify (with_this (set_savedAvEnabledState (negb m))) >>
  enableLocalStream uid false.

(** [_createUserAudio] up to the call of [getUserMedia]: the request is
    recorded in [pending] and settles later. *)
Definition _createUserAudio (uid : string) : M unit :=
  do source <- gets (fun w => audioSrc (game w));
  match source with
  | None | Some "" => log warn "Audio input source disabled"
  | Some _ =>
      do cached <- gets (fun w =>
                     bool_decide (is_Some (localStreams (this w) !! uid)));
      if cached then attachLocalStream uid
      else effect (GetUserMedia uid) >>
           modify (with_pending (fun l => l ++ [uid]))
  end.

(** The [.then] callback of the capture, with the tracks of the stream the
    device delivered. *)
Definition getUserMedia_then (uid : string) (tracks : list MediaStreamTrack)
  : M unit :=
  do sid <- new_MediaStream tracks;
  log debug "Got user audio:" >>
  modify (with_this (fun t =>
    set_localStreams (<[uid := sid]> (localStreams t)) t)) >>
  attachLocalStream uid >>
  button_addClass uid "sussuros-stream-connected".

Fixpoint remove_first (uid : string) (l : list string) : list string :=
  match l with
  | [] => []
  | x :: l' => if decide (x = uid) then l' else x :: remove_first uid l'
  end.

(** The capture resolves: [.then(...)] runs and [.catch(...)] receives what
    it throws. *)
Definition getUserMedia_resolved (uid : string)
    (tracks : list MediaStreamTrack) : M unit :=
  modify (with_pending (remove_first uid)) >>
  try_catch (getUserMedia_then uid tracks)
            (fun _ => log error "Error getting audio device:").

(** The capture is rejected: only [.catch(...)] runs. *)
Definition getUserMedia_rejected (uid : string) : M unit :=
  modify (with_pending (remove_first uid)) >>
  log error "Error getting audio device:".

(** ** The callbacks [setupPeer] registers on the transport *)

Definition on_signal (uid : string) (d : string) : M unit :=
  log debug "SimplePeer signal (" >>
  socket_emit {| action := "peer-signal"; userId := uid;
                 data := Some d; broadcasting := None |}.

Definition on_connect (uid : string) : M unit :=
  log debug "SimplePeer connect (" >>
  button_addClass uid "sussuros-peer-connected" >>
  _createUserAudio uid.

Definition on_data (uid : string) (d : string) : M unit :=
  log info "SimplePeer data (".

Definition on_stream (uid : string) (sid : nat) : M unit :=
  log debug "SimplePeer stream (" >>
  modify (with_this (fun t =>
    set_remoteStreams (<[uid := sid]> (remoteStreams t)) t)) >>
  _setAudioElementStream uid.

Definition on_close (uid : string) : M unit :=
  log debug "SimplePeer close (" >>
  closePeer uid.

Definition on_error (uid : string) (code : string) : M unit :=
  (if bool_decide (code = "ERR_DATA_CHANNEL")
   then log warn "Peer connection closed ("
   else log error "SimplePeer error (") >>
  do c <- peer_connected uid;
  when (negb c) (closePeer uid).

(** [_onRtcSettingsChanged], given the keys of the flattened [changed]
    object. *)
Definition _onRtcSettingsChanged (keys : list string) : M unit :=
  when (existsb (fun k =>
          bool_decide (k ∈ ["client.audioSink"; "client.audioSrc"])) keys)
    (log debug "Audio device changed, closing existing connections" >>
     closeAllPeers).

(** ** The socket handler of hooks.js *)

Definition socketHandler (request : SocketMsg) (sender : string) : M unit :=
  log debug "Socket event:" >>
  do me <- gets (fun w => localUser (game w));
  if bool_decide (action request = "peer-signal") then
    when (bool_decide (userId request = me)) (signal sender (data request))
  else if bool_decide (action request = "peer-close") then
    when (bool_decide (userId request = me)) (closePeer sender)
  else if bool_decide (action request = "peer-broadcasting") then
    when (bool_decide (userId request = me))
      (_remoteBroadcasting sender (broadcasting request))
  else log warn "Unknown socket event:".


(** The transport reports the connection established: the library sets
    [connected] on the handle before it raises the connect event. *)
Definition mark_connected (h : nat) (w : World) : World :=
  with_heap (fun hp =>
    set_handles
      (alter (fun p => {| initiator := initiator p; connected := true;
                          destroyed := destroyed p |}) h (handles hp)) hp) w.

(** ** Concrete worlds *)

Module Demo.

Definition alwaysOn : AvClient :=
  {| isVoiceAlways := true; exposesBroadcasting := true;
     hasToggleBroadcast := true; toggleThrows := false;
     broadcastFlag := true |}.

Definition host : Host :=
  {| localUser := "u1"; disableAvClientSetting := true;
     toggleBroadcastSetting := false; muted := false;
     audioSrc := Some "default"; avClient := Some alwaysOn |}.

(** The instance as the constructor leaves it, once the player list was
    rendered for the users u2 and u3. *)
Definition start : World :=
  {| this := {| peers := []; audioElements := ∅; remoteStreams := ∅;
                localStreams := ∅;
                talkieButtons := {[ "u2" := ∅; "u3" := ∅ ]};
                savedAvEnabledState := false;
                _savedMutedFlag := None; _savedBroadcasting := None |};
     heap := {| handles := ∅; streams := ∅;
                nextHandle := 0; nextStream := 0 |};
     game := host; pending := []; trace := [] |}.

Definition mic : MediaStreamTrack := {| enabled := true; readyState := live |}.

(** u1 clicked the button of u2: a negotiating session. *)
Definition negotiating : World := (initPeer "u2" start).1.

(** The transport of u2 connected and raised its connect event; the capture
    is still pending. *)
Definition connecting : World :=
  (on_connect "u2" (mark_connected 0 negotiating)).1.

(** The capture resolved: a connected session with its outbound stream. *)
Definition connected_u2 : World :=
  (getUserMedia_resolved "u2" [mic] connecting).1.

(** A second session, with u3, set up and connected the same way. *)
Definition two_connected : World :=
  (getUserMedia_resolved "u3" [mic]
     (on_connect "u3"
        (mark_connected 1 (initPeer "u3" connected_u2).1)).1).1.

(** The session of u2 is closed while its capture is still pending. *)
Definition closed_early : World := (closePeer "u2" connecting).1.

(** u1 connects to u2 again before the old capture resolves, and then it
    resolves: the new, still negotiating session has the stream. *)
Definition late_attached : World :=
  (getUserMedia_resolved "u2" [mic] (initPeer "u2" closed_early).1).1.

(** A user who keeps the always-on channel muted: the channel does not
    broadcast, and nothing was saved. *)
Definition muted_idle : World :=
  with_game (fun g => set_avClient (Some (set_broadcastFlag false alwaysOn))
                        (set_muted true g)) start.

(** The muted user connects to u2; the capture resolves. *)
Definition muted_connected : World :=
  (getUserMedia_resolved "u2" [mic]
     (on_connect "u2" (mark_connected 0 (initPeer "u2" muted_idle).1)).1).1.

End Demo.

(** ** Statements that are checked against the code *)

(** Two connects in a row leave the handle of the first in the table. *)
Definition second_connect_keeps_handle (w : World) (uid : string) : Prop :=
  let w1 := (initPeer uid w).1 in
  let w2 := (initPeer uid w1).1 in
  session w2 uid = session w1 uid.

(** The three kinds of relay message. *)
Definition relay_kind (a : string) : Prop :=
  a = "peer-signal" ∨ a = "peer-close" ∨ a = "peer-broadcasting".

(** [stream.getTracks().forEach(t => t.stop())] on the stream a table entry
    names, if there is one. *)
Definition stop_stream (o : option nat)
    (ss : gmap nat (list MediaStreamTrack)) : gmap nat (list MediaStreamTrack) :=
  match o with Some sid => alter (map stop) sid ss | None => ss end.

(** The world [closePeer uid] leaves behind when the user has a button of
    classes [cls] (shown below to be what the method computes). *)
Definition closed (uid : string) (cls : gset string) (w : World) : World :=
  {| this :=
       {| peers := JsMap.delete uid (peers (this w));
          audioElements := delete uid (audioElements (this w));
          remoteStreams := delete uid (remoteStreams (this w));
          localStreams := delete uid (localStreams (this w));
          talkieButtons :=
            <[uid := cls ∖ {["sussuros-stream-broadcasting"]}
                         ∖ {["sussuros-stream-connected"]}
                         ∖ {["sussuros-peer-connected"]}]>
              (talkieButtons (this w));
          savedAvEnabledState := savedAvEnabledState (this w);
          _savedMutedFlag := _savedMutedFlag (this w);
          _savedBroadcasting := _savedBroadcasting (this w) |};
     heap :=
       {| handles :=
            match session w uid with
            | Some h => alter destroy h (handles (heap w))
            | None => handles (heap w)
            end;
          streams :=
            stop_stream (localStreams (this w) !! uid)
              (stop_stream (remoteStreams (this w) !! uid)
                 (streams (heap w)));
          nextHandle := nextHandle (heap w);
          nextStream := nextStream (heap w) |};
     game := game w;
     pending := pending w;
     trace :=
       match session w uid with
       | Some h => trace w ++ [Transport h CallDestroy]
       | None => trace w
       end |}.

(** No live track is left in the stream [sid]. *)
Definition released (w : World) (sid : nat) : Prop :=
  Forall (fun t => readyState t = ended) (getTracks w sid).

(** What closing one session adds to the trace: the debug line, the close
    notification to the participant, then the destruction of the handle. *)
Definition close_trace (e : string * nat) : list Effect :=
  [Log debug "Closing peer (";
   Emit {| action := "peer-close"; userId := e.1;
           data := None; broadcasting := None |};
   Transport e.2 CallDestroy].

(** The changed keys name an audio device. *)
Definition audio_device_changed (keys : list string) : Prop :=
  "client.audioSink" ∈ keys ∨ "client.audioSrc" ∈ keys.

(** The method returns without an exception. *)
Definition returns_normally {A} (m : M A) (w : World) : Prop :=
  ∃ w' a, m w = (w', Ret a).

(** The broadcast switch of the shared channel. *)
Definition channel_broadcasting (w : World) : option bool :=
  broadcastFlag <$> avClient (game w).

(** Always-on mode with exclusivity: the setting [disableAvClient] is on,
    [toggleBroadcast] is off, and the AV client [av] is in always-on voice
    mode with a working [toggleBroadcast] method. *)
Definition exclusive_always_on (w : World) (av : AvClient) : Prop :=
  disableAvClientSetting (game w) = true ∧
  toggleBroadcastSetting (game w) = false ∧
  avClient (game w) = Some av ∧
  isVoiceAlways av = true ∧
  hasToggleBroadcast av = true ∧
  toggleThrows av = false.

(** A capture that resolves late is released and never attached: the tracks
    of the delivered stream are stopped and no transport receives it. *)
Definition late_capture_released (w : World) (uid : string)
    (tracks : list MediaStreamTrack) : Prop :=
  let w' := (getUserMedia_resolved uid tracks w).1 in
  released w' (nextStream (heap w)) ∧
  ∀ h, Transport h (CallAddStream (nextStream (heap w))) ∉ trace w'.

(** Enabling the outbound audio takes effect on connected sessions only. *)
Definition outbound_enabled_only_connected (w : World) (uid : string) : Prop :=
  let w' := (enableLocalStream uid true w).1 in
  (isLocalStreamEnabled uid w').2 = Ret true →
  ∃ h, session w' uid = Some h ∧ handle_connected w' h = true.

(** ** The user interface: audio elements, player list, menus *)

(** What the class asks of the browser when it creates an <audio> element:
    whether elements have a [sinkId] and whether they have [srcObject]. *)
Record Browser := {
  supportsSinkId : bool;
  supportsSrcObject : bool
}.

(** [_addUserAudioElement(userId, buttonElement)]; [buttonElement] says
    whether a button was passed.  The promise of [setSinkId] settles later
    and is only logged, so the call leaves no mark here. *)
Definition _addUserAudioElement (br : Browser) (uid : string)
    (buttonElement : bool) : M unit :=
  if buttonElement then
    when (negb (supportsSinkId br))
      (log debug "Browser does not support output device selection") >>
    modify (with_this (fun t =>
      set_audioElements
        (<[uid := {| hasSrcObject := supportsSrcObject br; srcObject := None;
                     src := None; playing := false |}]> (audioElements t)) t))
    >>
    do hasRemote <- gets (fun w =>
                      bool_decide (is_Some (remoteStreams (this w) !! uid)));
    when hasRemote (_setAudioElementStream uid)
  else ret tt.

(** A row of the rendered player list, as the callback sees it.
    [rowUserIdString] is the value of
    [$li.data('userId') || $li.attr('data-user-id')] when that value is a
    string, and [None] when it is falsy.  jQuery's [.data] turns an
    attribute that reads as a number, a boolean, null or JSON into a value
    that is no string (an all-digit id becomes a number); the callback then
    uses that value as the key of [talkieButtons] and compares it with
    [game.user.id] by [===].  The tables here are keyed by strings, so a row
    with such a value is not a [Row]: what is proved about rows is proved
    for ids that reach the callback as strings.  [containsButton] says
    whether the row already contains the button of that user. *)
Record Row := {
  rowUserIdString : option string;
  containsButton : bool
}.

(** The callback [_onRenderPlayerList] runs on each row. *)
Definition renderRow (br : Browser) (r : Row) : M unit :=
  do me <- gets (fun w => localUser (game w));
  match rowUserIdString r with
  | None | Some "" => ret tt
  | Some uid =>
      if bool_decide (uid = me) then ret tt
      else
        do hasButton <- gets (fun w =>
                          bool_decide (is_Some (talkieButtons (this w) !! uid)));
        if hasButton && containsButton r then ret tt
        else
          when (negb hasButton)
            (modify (with_this (fun t =>
               set_talkieButtons
                 (<[uid := {["sussuros-button"]}]> (talkieButtons t)) t))) >>
          _addUserAudioElement br uid true
  end.

Fixpoint _onRenderPlayerList (br : Browser) (rows : list Row) : M unit :=
  match rows with
  | [] => ret tt
  | r :: rows' => renderRow br r >> _onRenderPlayerList br rows'
  end.

(** The click handler [_onRenderPlayerList] puts on a button. *)
Definition button_click (uid : string) : M unit :=
  do fresh <- or_else (do present <- peers_has uid; ret (negb present))
                      (do c <- peer_connected uid; ret (negb c));
  if fresh then initPeer uid
  else
    do toggle <- gets (fun w => toggleBroadcastSetting (game w));
    when toggle (toggleLocalStream uid).

(** The two entries the [getUserContextOptions] hook of hooks.js adds. *)
Definition connectCondition (uid : string) : M bool :=
  or_else (do present <- peers_has uid; ret (negb present))
          (do c <- peer_connected uid; ret (negb c)).

Definition connectCallback (uid : string) : M unit :=
  do c <- connectCondition uid;
  when c (initPeer uid).

Definition transmitCondition (uid : string) : M bool :=
  and_then (peers_has uid) (peer_connected uid).

Definition transmitCallback (uid : string) : M unit :=
  do toggle <- gets (fun w => toggleBroadcastSetting (game w));
  if toggle then toggleLocalStream uid
  else
    do isOn <- isLocalStreamEnabled uid;
    enableLocalStream uid (negb isOn).

(** ** Invariants and statements for the further properties *)

(** The session table is a Map and its handles are objects of the heap that
    no two participants share. *)
Definition table_ok (w : World) : Prop :=
  NoDup (JsMap.keys (peers (this w))) ∧
  NoDup (peers (this w)).*2 ∧
  ∀ h, h ∈ (peers (this w)).*2 →
       h < nextHandle (heap w) ∧ is_Some (handles (heap w) !! h).

(** The classes of the button of [uid]. *)
Definition button_classes (w : World) (uid : string) : option (gset string) :=
  talkieButtons (this w) !! uid.

(** Exclusivity is configured but the shared channel is not in always-on
    mode (or there is no AV client): [_disableAvClient] mutes the
    microphone instead. *)
Definition exclusive_muting (w : World) : Prop :=
  disableAvClientSetting (game w) = true ∧
  toggleBroadcastSetting (game w) = false ∧
  from_option isVoiceAlways false (avClient (game w)) = false.

(** A responder session for u9, a participant the player list never showed:
    its signalling message arrived and there is no button for it. *)
Definition with_stranger : World :=
  (signal "u9" (Some "offer") Demo.two_connected).1.

(** [Demo.connected_u2] with the module in toggle mode. *)
Definition toggle_mode : World :=
  with_game (fun g =>
    {| localUser := localUser g;
       disableAvClientSetting := disableAvClientSetting g;
       toggleBroadcastSetting := true;
       muted := muted g; audioSrc := audioSrc g; avClient := avClient g |})
    Demo.connected_u2.

(** [Demo.negotiating] with the transport connected and no audio input
    device configured. *)
Definition no_microphone : World :=
  with_game (fun g =>
    {| localUser := localUser g;
       disableAvClientSetting := disableAvClientSetting g;
       toggleBroadcastSetting := toggleBroadcastSetting g;
       muted := muted g; audioSrc := None; avClient := avClient g |})
    (mark_connected 0 Demo.negotiating).

(** The capture of u2 resolved after its session was closed, which left the
    stream in [localStreams]; then u1 connects to u2 again and the transport
    of the new session reports connected. *)
Definition reconnecting : World :=
  mark_connected 1
    (initPeer "u2"
       (getUserMedia_resolved "u2" [Demo.mic] Demo.closed_early).1).1.
(** * Properties *)

(** ** The insertion-ordered map *)

Module JsMapFacts.
Import JsMap.
Section Facts.
Context {V : Type}.
Implicit Types (m : list (string * V)) (k : string).

Lemma get_set_eq k v m : get k (set k v m) = Some v.
  Proof.
    induction m as [|[k' v'] m IH]; simpl.
    - by rewrite decide_True.
    - destruct (decide (k = k')); simpl.
      + by rewrite decide_True.
      + by rewrite decide_False.
  Qed.

Lemma get_set_ne k k' v m : k ≠ k' → get k' (set k v m) = get k' m.
  Proof.
    intros Hne. induction m as [|[k0 v0] m IH]; simpl.
    - by rewrite decide_False.
    - destruct (decide (k = k0)) as [->|]; simpl.
      + by rewrite !decide_False.
      + by rewrite IH.
  Qed.

Lemma get_delete_eq k m : get k (delete k m) = None.
  Proof.
    induction m as [|[k' v'] m IH]; simpl; [done|].
    destruct (decide (k = k')); simpl; [done|].
    by rewrite decide_False.
  Qed.

Lemma get_delete_ne k k' m : k ≠ k' → get k' (delete k m) = get k' m.
  Proof.
    intros Hne. induction m as [|[k0 v0] m IH]; simpl; [done|].
    destruct (decide (k = k0)) as [->|]; simpl.
    - by rewrite decide_False.
    - by rewrite IH.
  Qed.

Lemma has_true k m : has k m = true ↔ is_Some (get k m).
  Proof. unfold has. by rewrite bool_decide_eq_true. Qed.

Lemma has_false k m : has k m = false ↔ get k m = None.
  Proof.
    unfold has. rewrite bool_decide_eq_false. by rewrite eq_None_not_Some.
  Qed.

Lemma get_None_not_key k m : get k m = None ↔ k ∉ keys m.
  Proof.
    unfold keys. induction m as [|[k' v'] m IH]; simpl.
    - split; [intros _; apply not_elem_of_nil | done].
    - rewrite not_elem_of_cons. destruct (decide (k = k')) as [->|Hne].
      + split; [done | by intros [? _]].
      + rewrite IH. tauto.
  Qed.

Lemma delete_absent k m : k ∉ keys m → delete k m = m.
  Proof.
    unfold keys. induction m as [|[k' v'] m IH]; simpl; [done|].
    rewrite not_elem_of_cons. intros [Hne Hin].
    rewrite decide_False by done. by rewrite IH.
  Qed.

Lemma keys_delete_cons k v m : delete k ((k, v) :: m) = delete k m.
  Proof. simpl. by rewrite decide_True. Qed.
End Facts.
End JsMapFacts.

(** ** Stepping through a method *)

Lemma peers_has_true w uid h :
  session w uid = Some h → JsMap.has uid (peers (this w)) = true.
Proof. intros H. apply JsMapFacts.has_true. unfold session in H. by rewrite H. Qed.

Lemma peers_has_false w uid :
  session w uid = None → JsMap.has uid (peers (this w)) = false.
Proof. intros H. by apply JsMapFacts.has_false. Qed.

Ltac munfold :=
  cbv beta iota zeta delta
    [bind or_else and_then when gets modify ret throw try_catch log
     socket_emit effect peers_has peer_connected peer_call fst snd
     negb andb orb].

(** ** send *)

Lemma send_connected w uid d h :
  session w uid = Some h → handle_connected w h = true →
  send uid d w = (with_trace (fun t => t ++ [Transport h (CallSend d)]) w,
                  Ret tt).
Proof.
  intros Hs Hc. unfold send. munfold.
  rewrite (peers_has_true _ _ _ Hs), Hs; munfold.
  rewrite Hc; munfold. by rewrite Hs.
Qed.

Lemma send_absent w uid d :
  session w uid = None → send uid d w = (w, Ret tt).
Proof.
  intros Hs. unfold send. munfold. by rewrite (peers_has_false _ _ Hs).
Qed.

Lemma send_not_connected w uid d h :
  session w uid = Some h → handle_connected w h = false →
  send uid d w = (w, Ret tt).
Proof.
  intros Hs Hc. unfold send. munfold.
  rewrite (peers_has_true _ _ _ Hs), Hs; munfold. by rewrite Hc.
Qed.

(** C10: [send] hands the payload to the data channel of the session's
    handle exactly when the table has a session for the id and its transport
    reports connected; in every other case it returns normally and leaves
    the whole world, trace included, as it was. *)
Theorem send_only_when_connected (w : World) (uid d : string) :
  (∀ h, session w uid = Some h → handle_connected w h = true →
        send uid d w =
          (with_trace (fun t => t ++ [Transport h (CallSend d)]) w, Ret tt)) ∧
  (¬ (∃ h, session w uid = Some h ∧ handle_connected w h = true) →
   send uid d w = (w, Ret tt)).
Proof.
  split.
  - intros h Hs Hc. by apply send_connected.
  - intros Hno. destruct (session w uid) as [h|] eqn:Hs.
    + destruct (handle_connected w h) eqn:Hc.
      * exfalso. apply Hno. by exists h.
      * by apply (send_not_connected _ _ _ h).
    + by apply send_absent.
Qed.

Lemma send_only_when_connected_witness :
  send "u2" "ping" Demo.connected_u2 =
    (with_trace (fun t => t ++ [Transport 0 (CallSend "ping")])
       Demo.connected_u2, Ret tt) ∧
  send "u2" "ping" Demo.negotiating = (Demo.negotiating, Ret tt) ∧
  send "u3" "ping" Demo.connected_u2 = (Demo.connected_u2, Ret tt).
Proof.
  split; [|split].
  - apply (proj1 (send_only_when_connected Demo.connected_u2 "u2" "ping"));
      reflexivity.
  - apply (proj2 (send_only_when_connected Demo.negotiating "u2" "ping")).
    intros [h [Hs Hc]]. vm_compute in Hs. injection Hs as <-.
    vm_compute in Hc. discriminate.
  - apply (proj2 (send_only_when_connected Demo.connected_u2 "u3" "ping")).
    intros [h [Hs _]]. vm_compute in Hs. discriminate.
Defined.

(** ** The socket handler *)

(** C8: a relay message of any of the three kinds whose recipient is not the
    local user changes nothing: the handler returns normally and the world
    is the one before, with only the debug line of the handler added to the
    trace. *)
Theorem socketHandler_discards_foreign
    (request : SocketMsg) (sender : string) (w : World) :
  relay_kind (action request) →
  userId request ≠ localUser (game w) →
  socketHandler request sender w =
    (with_trace (fun t => t ++ [Log debug "Socket event:"]) w, Ret tt).
Proof.
  intros Hkind Hne. unfold socketHandler. munfold.
  change (localUser (game (with_trace _ w))) with (localUser (game w)).
  rewrite (bool_decide_eq_false_2 _ Hne).
  destruct Hkind as [-> | [-> | ->]]; reflexivity.
Qed.

Lemma socketHandler_discards_foreign_witness :
  socketHandler {| action := "peer-close"; userId := "u7";
                   data := None; broadcasting := None |} "u2"
                Demo.connected_u2 =
    (with_trace (fun t => t ++ [Log debug "Socket event:"]) Demo.connected_u2,
     Ret tt).
Proof.
  apply socketHandler_discards_foreign.
  - right; left; reflexivity.
  - simpl. discriminate.
Defined.

(** ** initPeer *)

Lemma keys_set_present {V} (k : string) (v v0 : V) (m : list (string * V)) :
  JsMap.get k m = Some v0 → JsMap.keys (JsMap.set k v m) = JsMap.keys m.
Proof.
  unfold JsMap.keys. induction m as [|[k' v'] m IH]; simpl; [done|].
  destruct (decide (k = k')) as [->|Hne]; simpl; [done|].
  intros H. f_equal. by apply IH.
Qed.

Lemma initPeer_connected w uid h :
  session w uid = Some h → handle_connected w h = true →
  initPeer uid w =
    (with_trace (fun t => t ++ [Log warn "initPeer: Peer already exists for"])
       w, Ret tt).
Proof.
  intros Hs Hc. unfold initPeer. munfold.
  rewrite (peers_has_true _ _ _ Hs); munfold.
  rewrite Hs; munfold. by rewrite Hc.
Qed.

Lemma initPeer_not_connected w uid h :
  session w uid = Some h → handle_connected w h = false →
  initPeer uid w = setupPeer uid true w.
Proof.
  intros Hs Hc. unfold initPeer. munfold.
  rewrite (peers_has_true _ _ _ Hs); munfold.
  rewrite Hs; munfold. by rewrite Hc.
Qed.

Lemma initPeer_absent w uid :
  session w uid = None → initPeer uid w = setupPeer uid true w.
Proof.
  intros Hs. unfold initPeer. munfold.
  by rewrite (peers_has_false _ _ Hs).
Qed.

(** C1, as the code has it: with a session for the id in the table, a
    connect is a logged no-op when the transport of that session reports
    connected.  When it does not (the session is still negotiating), the
    connect puts a fresh initiator handle in the table in place of the old
    one: the table keeps its keys, so there is still one entry for the id,
    and the old handle stays in the heap as it was, never destroyed by this
    call. *)
Theorem initPeer_on_existing_session (w : World) (uid : string) (h : nat) :
  session w uid = Some h →
  (handle_connected w h = true →
   initPeer uid w =
     (with_trace
        (fun t => t ++ [Log warn "initPeer: Peer already exists for"]) w,
      Ret tt)) ∧
  (handle_connected w h = false →
   ∃ w', initPeer uid w = (w', Ret tt) ∧
         session w' uid = Some (nextHandle (heap w)) ∧
         JsMap.keys (peers (this w')) = JsMap.keys (peers (this w)) ∧
         handles (heap w') =
           <[nextHandle (heap w) :=
               {| initiator := true; connected := false;
                  destroyed := false |}]> (handles (heap w)) ∧
         trace w' = trace w ++ [Render]).
Proof.
  intros Hs. split; intros Hc.
  - by apply (initPeer_connected _ _ h).
  - rewrite (initPeer_not_connected _ _ _ Hs Hc).
    eexists. split; [reflexivity|]. cbn.
    split; [apply (JsMapFacts.get_set_eq (V:=nat))|].
    split; [by apply (keys_set_present _ _ h)|]. done.
Qed.

Lemma initPeer_on_existing_session_witness :
  (initPeer "u2" Demo.connected_u2 =
     (with_trace
        (fun t => t ++ [Log warn "initPeer: Peer already exists for"])
        Demo.connected_u2, Ret tt)) ∧
  (∃ w', initPeer "u2" Demo.negotiating = (w', Ret tt) ∧
         session w' "u2" = Some 1 ∧
         JsMap.keys (peers (this w')) = ["u2"] ∧
         handles (heap w') =
           <[1 := {| initiator := true; connected := false;
                     destroyed := false |}]>
             (handles (heap Demo.negotiating)) ∧
         trace w' = trace Demo.negotiating ++ [Render]).
Proof.
  split.
  - apply (proj1 (initPeer_on_existing_session Demo.connected_u2 "u2" 0
                    eq_refl)).
    reflexivity.
  - apply (proj2 (initPeer_on_existing_session Demo.negotiating "u2" 0
                    eq_refl)).
    reflexivity.
Defined.

(** C1 as stated fails: after a first connect the session of u2 is still
    negotiating, and the second connect replaces its handle 0 by the new
    handle 1. *)
Lemma second_connect_replaces_handle :
  ¬ second_connect_keeps_handle Demo.start "u2".
Proof. unfold second_connect_keeps_handle. vm_compute. discriminate. Qed.

(** ** closePeer *)

Ltac mrun :=
  cbv beta iota zeta delta
    [bind or_else and_then when gets modify ret throw try_catch log
     socket_emit effect peers_has peer_connected peer_call fst snd
     negb andb orb forEach_track peer_destroy button_removeClass
     button_addClass session stop_stream
     with_this with_heap with_game with_pending with_trace
     set_peers set_audioElements set_remoteStreams set_localStreams
     set_talkieButtons set_savedAvEnabledState set_saved set_handles
     set_streams set_muted set_avClient
     this heap game pending trace
     peers audioElements remoteStreams localStreams talkieButtons
     savedAvEnabledState _savedMutedFlag _savedBroadcasting
     handles streams nextHandle nextStream].

(** With a button for the user, [closePeer] runs to its end. *)
Lemma closePeer_run (w : World) (uid : string) (cls : gset string) :
  talkieButtons (this w) !! uid = Some cls →
  closePeer uid w = (closed uid cls w, Ret tt).
Proof.
  destruct w as [[ps aes rss lss tbs sav smf sbc] [hs ss nh ns] g pd tr].
  intros Hb. cbv [this talkieButtons] in Hb.
  unfold closePeer, closed. mrun.
  destruct (rss !! uid) as [rsid|] eqn:Hr; mrun;
    (destruct (lss !! uid) as [lsid|] eqn:Hl; mrun);
    rewrite Hb; mrun; rewrite lookup_insert_eq; mrun;
    (destruct (JsMap.get uid ps) as [h0|] eqn:Hp; mrun);
    rewrite lookup_insert_eq; mrun;
    rewrite !insert_insert_eq; reflexivity.
Qed.

(** Without one it throws at the first [removeClass], after the streams were
    stopped and before [localStreams] and [peers] are cleared. *)
Lemma closePeer_no_button (w : World) (uid : string) :
  talkieButtons (this w) !! uid = None →
  ∃ w', closePeer uid w = (w', Throw (undefined_call "removeClass")) ∧
        peers (this w') = peers (this w) ∧
        localStreams (this w') = localStreams (this w) ∧
        handles (heap w') = handles (heap w).
Proof.
  destruct w as [[ps aes rss lss tbs sav smf sbc] [hs ss nh ns] g pd tr].
  intros Hb. cbv [this talkieButtons] in Hb.
  unfold closePeer. mrun.
  destruct (rss !! uid) as [rsid|] eqn:Hr; mrun;
    (destruct (lss !! uid) as [lsid|] eqn:Hl; mrun);
    rewrite Hb; mrun; (eexists; split; [reflexivity|]); mrun; done.
Qed.

Lemma Forall_stop (l : list MediaStreamTrack) :
  Forall (fun t => readyState t = ended) (map stop l).
Proof. induction l; constructor; done. Qed.

Lemma released_stop_stream (ss : gmap nat (list MediaStreamTrack))
    (o : option nat) (sid : nat) :
  Forall (fun t => readyState t = ended) (default [] (ss !! sid)) ∨
    o = Some sid →
  Forall (fun t => readyState t = ended)
         (default [] (stop_stream o ss !! sid)).
Proof.
  intros H. destruct o as [a|]; simpl.
  - destruct (decide (a = sid)) as [->|Hne].
    + rewrite lookup_alter_eq.
      destruct (ss !! sid); simpl; [apply Forall_stop|done].
    + rewrite lookup_alter_ne by done. destruct H as [H|H]; [done|].
      by simplify_eq.
  - by destruct H.
Qed.

(** C2: [closePeer] completes exactly when the user has a button, and once
    it has completed every track of the inbound and of the outbound stream
    of the session is stopped, the handle of the session is destroyed, and
    the id is in none of the tables [peers], [audioElements],
    [remoteStreams], [localStreams]; nothing is assumed about which of the
    streams and the handle exist. *)
Theorem closePeer_releases_everything (w : World) (uid : string) :
  (is_Some (talkieButtons (this w) !! uid) ↔
   returns_normally (closePeer uid) w) ∧
  (∀ w', closePeer uid w = (w', Ret tt) →
    (∀ sid, remoteStreams (this w) !! uid = Some sid → released w' sid) ∧
    (∀ sid, localStreams (this w) !! uid = Some sid → released w' sid) ∧
    (∀ h p, session w uid = Some h → handles (heap w) !! h = Some p →
            handles (heap w') !! h = Some (destroy p) ∧
            Transport h CallDestroy ∈ trace w') ∧
    session w' uid = None ∧
    audioElements (this w') !! uid = None ∧
    remoteStreams (this w') !! uid = None ∧
    localStreams (this w') !! uid = None).
Proof.
  split.
  - split.
    + intros [cls Hb]. exists (closed uid cls w), tt. by apply closePeer_run.
    + intros (w' & [] & Hrun).
      destruct (talkieButtons (this w) !! uid) eqn:Hb; [by eexists|].
      destruct (closePeer_no_button w uid Hb) as (w1 & Hthrow & _).
      rewrite Hthrow in Hrun. discriminate.
  - intros w' Hrun.
    destruct (talkieButtons (this w) !! uid) as [cls|] eqn:Hb.
    2: { destruct (closePeer_no_button w uid Hb) as (w1 & Hthrow & _).
         rewrite Hthrow in Hrun. discriminate. }
    rewrite (closePeer_run _ _ cls Hb) in Hrun. injection Hrun as <-.
    unfold released, getTracks, closed; cbn [this heap trace streams handles
      peers audioElements remoteStreams localStreams].
    split; [|split; [|split; [|split; [|split; [|split]]]]].
    + intros sid Hr. rewrite Hr.
      apply released_stop_stream; left.
      apply released_stop_stream; by right.
    + intros sid Hl. rewrite Hl. apply released_stop_stream; by right.
    + intros h p Hs Hp. rewrite Hs. split.
      * rewrite lookup_alter_eq. by rewrite Hp.
      * apply elem_of_app; right. by apply list_elem_of_singleton.
    + apply (JsMapFacts.get_delete_eq (V:=nat)).
    + apply lookup_delete_eq.
    + apply lookup_delete_eq.
    + apply lookup_delete_eq.
Qed.

Lemma closePeer_releases_everything_witness :
  ∃ w', closePeer "u2" Demo.connected_u2 = (w', Ret tt) ∧
        released w' 0 ∧
        handles (heap w') !! 0 =
          Some {| initiator := true; connected := true; destroyed := true |} ∧
        session w' "u2" = None ∧
        localStreams (this w') !! "u2" = None.
Proof.
  destruct (closePeer_releases_everything Demo.connected_u2 "u2")
    as [Hiff Hprops].
  destruct (proj1 Hiff) as (w' & [] & Hrun); [by eexists|].
  destruct (Hprops w' Hrun) as (_ & Hl & Hh & Hs & _ & _ & Hls).
  exists w'. split; [exact Hrun|].
  split; [apply Hl; reflexivity|].
  split; [|by split].
  apply (Hh 0 {| initiator := true; connected := true;
                 destroyed := false |}); reflexivity.
Defined.

(** ** closeAllPeers and the device change *)

Lemma closeOne_run (w : World) (uid : string) (cls : gset string) :
  talkieButtons (this w) !! uid = Some cls →
  closeOne uid w =
    (closed uid cls
       (with_trace (fun t => t ++ [Log debug "Closing peer ("] ++
          [Emit {| action := "peer-close"; userId := uid;
                   data := None; broadcasting := None |}]) w), Ret tt).
Proof.
  intros Hb. unfold closeOne. munfold.
  rewrite (closePeer_run _ uid cls) by exact Hb.
  destruct w as [t hp g pd tr]. unfold with_trace; cbn [this heap game pending trace].
  by rewrite <- app_assoc.
Qed.

Lemma forEach_peers_cons k ks body w :
  forEach_peers (k :: ks) body w =
    if JsMap.has k (peers (this w)) then
      match body k w with
      | (w1, Ret _) => forEach_peers ks body w1
      | (w1, Throw e) => (w1, Throw e)
      end
    else forEach_peers ks body w.
Proof.
  cbn [forEach_peers]. unfold bind at 1. unfold bind at 1.
  unfold peers_has, gets, when, ret.
  destruct (JsMap.has k (peers (this w))); [|reflexivity].
  destruct (body k w) as [w1 [[]|e]]; reflexivity.
Qed.

Lemma forEach_close_all (ps : list (string * nat)) :
  ∀ w, peers (this w) = ps →
  NoDup (JsMap.keys ps) →
  (∀ uid, uid ∈ JsMap.keys ps → is_Some (talkieButtons (this w) !! uid)) →
  ∃ w', forEach_peers (JsMap.keys ps) closeOne w = (w', Ret tt) ∧
        peers (this w') = [] ∧
        trace w' = trace w ++ flat_map close_trace ps ∧
        (∀ h p, handles (heap w) !! h = Some p →
                handles (heap w') !! h =
                  Some (if bool_decide (h ∈ ps.*2) then destroy p else p)) ∧
        game w' = game w.
Proof.
  induction ps as [|[k h] ps IH]; intros w Hps Hnd Hbtn.
  - exists w. simpl. repeat split; [done|by rewrite app_nil_r|done].
  - unfold JsMap.keys in *. rewrite fmap_cons in Hnd, Hbtn.
    apply NoDup_cons in Hnd as [Hk Hnd].
    destruct (Hbtn k) as [cls Hcls]; [by left|].
    assert (Hsess : session w k = Some h).
    { unfold session. rewrite Hps. simpl. by rewrite decide_True. }
    rewrite fmap_cons, forEach_peers_cons. cbn [fst].
    rewrite (peers_has_true _ _ _ Hsess).
    rewrite (closeOne_run _ _ cls) by exact Hcls.
    set (w0 := with_trace _ w).
    destruct (IH (closed k cls w0)) as (w' & Hrun & Hempty & Htr & Hh & Hg).
    + cbn. rewrite Hps. rewrite JsMapFacts.keys_delete_cons.
      by apply JsMapFacts.delete_absent.
    + exact Hnd.
    + intros uid Hin. cbn.
      destruct (decide (k = uid)) as [->|Hne].
      * rewrite lookup_insert_eq. by eexists.
      * rewrite lookup_insert_ne by done. apply Hbtn. by right.
    + exists w'. split; [exact Hrun|]. split; [exact Hempty|].
      split; [|split].
      * rewrite Htr. cbn. unfold session. cbn. rewrite Hps. simpl.
        rewrite decide_True by done. cbn.
        by rewrite <- !app_assoc.
      * intros h0 p Hp.
        assert (Hstep : handles (heap (closed k cls w0)) !! h0 =
                  Some (if bool_decide (h0 = h) then destroy p else p)).
        { cbn. unfold session. cbn. rewrite Hps. simpl.
          rewrite decide_True by done.
          case_bool_decide as Heq.
          - subst h0. rewrite lookup_alter_eq. by rewrite Hp.
          - rewrite lookup_alter_ne by done. exact Hp. }
        rewrite (Hh _ _ Hstep). f_equal.
        rewrite fmap_cons. cbn [snd].
        destruct (decide (h0 = h)) as [->|Hne].
        -- rewrite (bool_decide_eq_true_2 (h = h)) by done.
           rewrite (bool_decide_eq_true_2 (h ∈ h :: ps.*2)) by (by left).
           destruct (bool_decide (h ∈ ps.*2)); reflexivity.
        -- rewrite (bool_decide_eq_false_2 (h0 = h)) by done.
           apply (f_equal (fun b : bool => if b then destroy p else p)).
           apply bool_decide_ext. rewrite elem_of_cons. tauto.
      * by rewrite Hg.
Qed.

Lemma audio_key_changed (keys : list string) :
  existsb (fun k =>
    bool_decide (k ∈ ["client.audioSink"; "client.audioSrc"])) keys = true
  ↔ audio_device_changed keys.
Proof.
  unfold audio_device_changed. rewrite existsb_exists. split.
  - intros (k & Hin & Hk). apply bool_decide_eq_true_1 in Hk.
    apply list_elem_of_In in Hin.
    apply elem_of_cons in Hk as [->|Hk]; [by left|].
    apply list_elem_of_singleton in Hk as ->. by right.
  - intros [H|H]; eexists; (split; [apply list_elem_of_In; exact H|]);
      apply bool_decide_eq_true_2; set_solver.
Qed.

Lemma session_handle_in (ps : list (string * nat)) (uid : string) (h : nat) :
  JsMap.get uid ps = Some h → h ∈ ps.*2.
Proof.
  induction ps as [|[k v] ps IH]; simpl; [done|].
  destruct (decide (uid = k)).
  - intros [= ->]. by left.
  - intros H. right. by apply IH.
Qed.

(** The device change when every participant of the table has its button:
    a change of the audio input or output device key closes every session.
    For each entry of the table, in order, the close notification is
    emitted and then the handle is destroyed, and the table ends empty.  A
    change that names no audio device key does nothing.  The table is a Map
    (no key twice). *)
Theorem device_change_closes_all (w : World) (keys : list string) :
  NoDup (JsMap.keys (peers (this w))) →
  (∀ uid, uid ∈ JsMap.keys (peers (this w)) →
          is_Some (talkieButtons (this w) !! uid)) →
  (audio_device_changed keys →
   ∃ w', _onRtcSettingsChanged keys w = (w', Ret tt) ∧
         peers (this w') = [] ∧
         trace w' =
           trace w ++
           [Log debug "Audio device changed, closing existing connections"]
           ++ flat_map close_trace (peers (this w)) ∧
         (∀ uid h p, session w uid = Some h →
                     handles (heap w) !! h = Some p →
                     handles (heap w') !! h = Some (destroy p))) ∧
  (¬ audio_device_changed keys → _onRtcSettingsChanged keys w = (w, Ret tt)).
Proof.
  intros Hnd Hbtn. split.
  - intros Hchg. apply audio_key_changed in Hchg.
    unfold _onRtcSettingsChanged. rewrite Hchg.
    unfold closeAllPeers. munfold.
    set (w0 := with_trace _ w).
    destruct (forEach_close_all (peers (this w)) w0 eq_refl Hnd Hbtn)
      as (w' & Hrun & Hempty & Htr & Hh & _).
    exists w'. change (peers (this w0)) with (peers (this w)).
    split; [exact Hrun|]. split; [exact Hempty|]. split.
    + rewrite Htr. cbn. by rewrite <- app_assoc.
    + intros uid h p Hs Hp. rewrite (Hh h p Hp).
      rewrite bool_decide_eq_true_2; [done|].
      by apply (session_handle_in _ uid).
  - intros Hno. unfold _onRtcSettingsChanged.
    destruct (existsb _ keys) eqn:He; [|reflexivity].
    by apply audio_key_changed in He.
Qed.

Lemma device_change_closes_all_witness :
  (∃ w', _onRtcSettingsChanged ["client.audioSrc"] Demo.two_connected =
           (w', Ret tt) ∧
         peers (this w') = [] ∧
         handles (heap w') !! 0 =
           Some {| initiator := true; connected := true;
                   destroyed := true |} ∧
         handles (heap w') !! 1 =
           Some {| initiator := true; connected := true;
                   destroyed := true |}) ∧
  _onRtcSettingsChanged ["client.users.u1.muted"] Demo.two_connected =
    (Demo.two_connected, Ret tt).
Proof.
  assert (Hnd : NoDup (JsMap.keys (peers (this Demo.two_connected)))).
  { apply (NoDup_cons_2 "u2" ["u3"]); [|apply (NoDup_singleton "u3")].
    intros H. apply list_elem_of_singleton in H. discriminate. }
  assert (Hbtn : ∀ uid, uid ∈ JsMap.keys (peers (this Demo.two_connected)) →
            is_Some (talkieButtons (this Demo.two_connected) !! uid)).
  { intros uid H. change (uid ∈ ["u2"; "u3"]) in H.
    apply elem_of_cons in H as [->|H]; [by eexists|].
    apply list_elem_of_singleton in H as ->. by eexists. }
  split.
  - destruct (proj1 (device_change_closes_all Demo.two_connected
                       ["client.audioSrc"] Hnd Hbtn))
      as (w' & Hrun & Hempty & _ & Hh).
    + right. by left.
    + exists w'. split; [exact Hrun|]. split; [exact Hempty|]. split.
      * apply (Hh "u2" 0 {| initiator := true; connected := true;
                            destroyed := false |}); reflexivity.
      * apply (Hh "u3" 1 {| initiator := true; connected := true;
                            destroyed := false |}); reflexivity.
  - apply (proj2 (device_change_closes_all Demo.two_connected
                    ["client.users.u1.muted"] Hnd Hbtn)).
    intros [H|H]; apply list_elem_of_singleton in H; discriminate.
Defined.

(** C7 at the failing input: [with_stranger] has the connected sessions of
    u2 and u3 and a responder session for u9, opened by a signalling message
    of u9, who has no button.  The change of the audio input device closes
    u2 and u3, emits the close notification for u9, and then [closePeer]
    throws on the missing button: the exception leaves
    [_onRtcSettingsChanged], the session of u9 is still in the table and
    its handle is not destroyed. *)
Theorem device_change_leaves_stranger_open :
  JsMap.keys (peers (this with_stranger)) = ["u2"; "u3"; "u9"] ∧
  talkieButtons (this with_stranger) !! "u9" = None ∧
  (_onRtcSettingsChanged ["client.audioSrc"] with_stranger).2 =
    Throw (undefined_call "removeClass") ∧
  peers (this (_onRtcSettingsChanged ["client.audioSrc"] with_stranger).1) =
    [("u9", 2)] ∧
  handles (heap (_onRtcSettingsChanged ["client.audioSrc"] with_stranger).1)
    !! 2 =
    Some {| initiator := false; connected := false; destroyed := false |} ∧
  trace (_onRtcSettingsChanged ["client.audioSrc"] with_stranger).1 =
    trace with_stranger ++
    [Log debug "Audio device changed, closing existing connections"] ++
    flat_map close_trace [("u2", 0); ("u3", 1)] ++
    [Log debug "Closing peer (";
     Emit {| action := "peer-close"; userId := "u9";
             data := None; broadcasting := None |}].
Proof.
  split; [vm_compute; reflexivity|].
  split; [vm_compute; reflexivity|].
  split; [vm_compute; reflexivity|].
  split; [vm_compute; reflexivity|].
  split; vm_compute; reflexivity.
Qed.

(** ** The relay close message *)

Lemma closed_frame (w : World) (uid other : string) (cls : gset string) :
  other ≠ uid →
  session (closed uid cls w) other = session w other ∧
  audioElements (this (closed uid cls w)) !! other =
    audioElements (this w) !! other ∧
  remoteStreams (this (closed uid cls w)) !! other =
    remoteStreams (this w) !! other ∧
  localStreams (this (closed uid cls w)) !! other =
    localStreams (this w) !! other ∧
  talkieButtons (this (closed uid cls w)) !! other =
    talkieButtons (this w) !! other.
Proof.
  intros Hne. unfold closed, session. cbn.
  rewrite (JsMapFacts.get_delete_ne (V:=nat)) by done.
  rewrite !lookup_delete_ne by done.
  by rewrite lookup_insert_ne by done.
Qed.

(** C9, as the code has it: the socket handler has no error handling of its
    own, and what [closePeer] throws leaves it.  A close message addressed
    to the local user from a participant that has a button is processed
    without an exception, whether or not a session exists for it, and the
    table entries of every other participant are as before, as are the
    handles that are not the sender's. *)
Theorem relay_close_with_button
    (request : SocketMsg) (sender : string) (w : World) :
  action request = "peer-close" →
  userId request = localUser (game w) →
  is_Some (talkieButtons (this w) !! sender) →
  ∃ w', socketHandler request sender w = (w', Ret tt) ∧
        session w' sender = None ∧
        (∀ other, other ≠ sender →
           session w' other = session w other ∧
           audioElements (this w') !! other = audioElements (this w) !! other ∧
           remoteStreams (this w') !! other = remoteStreams (this w) !! other ∧
           localStreams (this w') !! other = localStreams (this w) !! other ∧
           talkieButtons (this w') !! other = talkieButtons (this w) !! other) ∧
        (∀ h, session w sender ≠ Some h →
              handles (heap w') !! h = handles (heap w) !! h).
Proof.
  intros Hact Hme [cls Hb]. unfold socketHandler. munfold.
  set (w0 := with_trace _ w).
  change (localUser (game w0)) with (localUser (game w)).
  rewrite Hact, Hme.
  rewrite (bool_decide_eq_false_2 ("peer-close" = "peer-signal"))
    by discriminate.
  rewrite !bool_decide_eq_true_2 by done.
  rewrite (closePeer_run w0 sender cls) by exact Hb.
  eexists. split; [reflexivity|]. split; [|split].
  - apply (JsMapFacts.get_delete_eq (V:=nat)).
  - intros other Hne. by apply (closed_frame w0).
  - intros h Hh. unfold closed. cbn [heap handles].
    change (session w0 sender) with (session w sender).
    change (handles (heap w0)) with (handles (heap w)).
    destruct (session w sender) as [h0|]; [|done].
    apply lookup_alter_ne. congruence.
Qed.

Lemma relay_close_with_button_witness :
  ∃ w', socketHandler {| action := "peer-close"; userId := "u1";
                         data := None; broadcasting := None |} "u3"
                      Demo.connected_u2 = (w', Ret tt) ∧
        session w' "u3" = None ∧
        session w' "u2" = Some 0 ∧
        localStreams (this w') !! "u2" = Some 0 ∧
        handles (heap w') !! 0 =
          Some {| initiator := true; connected := true;
                  destroyed := false |}.
Proof.
  destruct (relay_close_with_button
              {| action := "peer-close"; userId := "u1";
                 data := None; broadcasting := None |} "u3"
              Demo.connected_u2 eq_refl eq_refl)
    as (w' & Hrun & Hs & Hother & Hh).
  - by eexists.
  - exists w'. split; [exact Hrun|]. split; [exact Hs|].
    destruct (Hother "u2") as (H1 & _ & _ & H4 & _); [discriminate|].
    split; [by rewrite H1|]. split; [by rewrite H4|].
    rewrite Hh; [reflexivity|discriminate].
Defined.

(** C9 as stated fails: a close message from u9, who has neither a button
    nor a session, makes the handler throw. *)
Lemma relay_close_without_button_throws :
  ¬ returns_normally
      (socketHandler {| action := "peer-close"; userId := "u1";
                        data := None; broadcasting := None |} "u9")
      Demo.connected_u2.
Proof.
  intros (w' & a & H).
  assert (Hthrow : ∃ w1 e, socketHandler
            {| action := "peer-close"; userId := "u1";
               data := None; broadcasting := None |} "u9"
            Demo.connected_u2 = (w1, Throw e)).
  { unfold socketHandler. munfold.
    set (w0 := with_trace _ Demo.connected_u2).
    cbn [action userId].
    rewrite (bool_decide_eq_false_2 ("peer-close" = "peer-signal"))
      by discriminate.
    rewrite !bool_decide_eq_true_2 by reflexivity.
    destruct (closePeer_no_button w0 "u9") as (w1 & Hrun & _);
      [reflexivity|].
    rewrite Hrun. by eexists _, _. }
  destruct Hthrow as (w1 & e & Hthrow). rewrite Hthrow in H. discriminate.
Qed.

(** ** The broadcast coordinator: _disableAvClient *)

Ltac mrun_av :=
  cbv beta iota zeta delta
    [bind or_else and_then when gets modify ret throw try_catch log
     socket_emit effect fst snd negb andb orb
     _disableAvClient alwaysOnBranch muteBranch av_toggleBroadcast
     with_this with_heap with_game with_pending with_trace
     set_saved set_savedAvEnabledState set_muted set_avClient
     set_broadcastFlag
     this heap game pending trace
     peers audioElements remoteStreams localStreams talkieButtons
     savedAvEnabledState _savedMutedFlag _savedBroadcasting
     localUser disableAvClientSetting toggleBroadcastSetting muted audioSrc
     avClient isVoiceAlways exposesBroadcasting hasToggleBroadcast
     toggleThrows broadcastFlag].

Ltac open_world w :=
  destruct w as [[ps aes rss lss tbs sav smf sbc] hp
                 [me dis tog mu asrc avc] pd tr].

(** [beginExclusive]: in always-on mode with exclusivity the mute flag and
    the broadcast flag are saved and the channel stops broadcasting. *)
Lemma disableAvClient_begin (w : World) (av : AvClient) :
  exclusive_always_on w av →
  _disableAvClient true w =
    (with_game (set_avClient (Some (set_broadcastFlag false av)))
       (with_this
          (set_saved (Some (muted (game w)))
             (Some (if exposesBroadcasting av then broadcastFlag av
                    else negb (muted (game w))))) w), Ret tt).
Proof.
  open_world w. intros (Hd & Ht & Hav & Hv & Hh & Hth).
  cbn in Hd, Ht, Hav. subst dis tog avc.
  destruct av as [va ex ht th bf]. cbn in Hv, Hh, Hth. subst va ht th.
  mrun_av. reflexivity.
Qed.

(** [endExclusive] with a saved broadcast flag: the channel gets the saved
    value back and the saved state is cleared. *)
Lemma disableAvClient_end_saved (w : World) (av : AvClient) (b : bool) :
  exclusive_always_on w av →
  _savedBroadcasting (this w) = Some b →
  _disableAvClient false w =
    (with_game (set_avClient (Some (set_broadcastFlag b av)))
       (with_this (set_saved None None) w), Ret tt).
Proof.
  open_world w. intros (Hd & Ht & Hav & Hv & Hh & Hth) Hs.
  cbn in Hd, Ht, Hav, Hs. subst dis tog avc sbc.
  destruct av as [va ex ht th bf]. cbn in Hv, Hh, Hth. subst va ht th.
  mrun_av. reflexivity.
Qed.

(** [endExclusive] without a saved broadcast flag: the value is derived
    from the saved mute flag, and an [undefined] mute flag counts as not
    muted, so with nothing saved the channel is switched to broadcasting. *)
Lemma disableAvClient_end_unsaved (w : World) (av : AvClient)
    (m : option bool) :
  exclusive_always_on w av →
  _savedBroadcasting (this w) = None →
  _savedMutedFlag (this w) = m →
  _disableAvClient false w =
    (with_game
       (set_avClient (Some (set_broadcastFlag (negb (default false m)) av)))
       (with_this (set_saved None None) w), Ret tt).
Proof.
  open_world w. intros (Hd & Ht & Hav & Hv & Hh & Hth) Hs Hm.
  cbn in Hd, Ht, Hav, Hs, Hm. subst dis tog avc sbc smf.
  destruct av as [va ex ht th bf]. cbn in Hv, Hh, Hth. subst va ht th.
  mrun_av. destruct m as [[]|]; reflexivity.
Qed.

(** [_disableAvClient] never throws, and it touches neither the tables nor
    the heap. *)
Lemma disableAvClient_frame (b : bool) (w : World) :
  ∃ w', _disableAvClient b w = (w', Ret tt) ∧
        heap w' = heap w ∧ pending w' = pending w ∧
        peers (this w') = peers (this w) ∧
        audioElements (this w') = audioElements (this w) ∧
        remoteStreams (this w') = remoteStreams (this w) ∧
        localStreams (this w') = localStreams (this w) ∧
        talkieButtons (this w') = talkieButtons (this w).
Proof.
  open_world w. mrun_av.
  destruct dis, tog; cbn [negb orb]; try (by eexists).
  destruct avc as [[va ex ht th bf]|]; mrun_av.
  - destruct va, b; mrun_av.
    + destruct ht, th; mrun_av; try (by eexists).
      destruct mu; mrun_av; by eexists.
    + destruct sbc as [sb|]; mrun_av;
        (destruct ht, th; mrun_av; try (by eexists));
        destruct mu, sav; mrun_av; by eexists.
    + destruct mu; mrun_av; by eexists.
    + destruct mu, sav; mrun_av; by eexists.
  - destruct b; destruct mu; try destruct sav; mrun_av; by eexists.
Qed.

(** C4 at the failing input: the user keeps the always-on channel muted, the
    channel does not broadcast and nothing was saved.  Ending the exclusive
    whisper switches the channel to broadcasting, both when
    [_disableAvClient(false)] is called directly and when it is reached
    through [enableLocalStream(userId, false)] as the capture of a new
    connection resolves. *)
Theorem endExclusive_unsaved_turns_broadcast_on :
  _savedMutedFlag (this Demo.muted_idle) = None ∧
  _savedBroadcasting (this Demo.muted_idle) = None ∧
  muted (game Demo.muted_idle) = true ∧
  channel_broadcasting Demo.muted_idle = Some false ∧
  channel_broadcasting (_disableAvClient false Demo.muted_idle).1 = Some true ∧
  channel_broadcasting Demo.muted_connected = Some true.
Proof. repeat split; reflexivity. Qed.

(** ** enableLocalStream *)

Ltac proj :=
  cbn [this heap game pending trace
       peers audioElements remoteStreams localStreams talkieButtons
       savedAvEnabledState _savedMutedFlag _savedBroadcasting
       handles streams nextHandle nextStream
       localUser disableAvClientSetting toggleBroadcastSetting muted audioSrc
       avClient fst snd].

Ltac mrun_els :=
  cbv beta iota zeta delta
    [bind or_else and_then when gets modify ret throw try_catch log
     socket_emit effect peers_has negb andb orb
     enableLocalStream isLocalStreamEnabled forEach_track
     button_addClass button_removeClass
     with_this with_heap with_game with_pending with_trace
     set_peers set_audioElements set_remoteStreams set_localStreams
     set_talkieButtons set_handles set_streams];
  proj.

Lemma getTracks_lookup (w : World) (sid : nat) (l : list MediaStreamTrack) :
  streams (heap w) !! sid = Some l → getTracks w sid = l.
Proof. intros H. unfold getTracks. by rewrite H. Qed.

Lemma existsb_set_enabled (b : bool) (l : list MediaStreamTrack) :
  l ≠ [] → existsb enabled (map (set_enabled b) l) = b.
Proof.
  destruct l as [|t l]; [done|]. intros _. simpl.
  destruct b; [done|]. induction l; simpl; done.
Qed.

Lemma existsb_all_disabled (l : list MediaStreamTrack) :
  Forall (fun t => enabled t = false) l → existsb enabled l = false.
Proof. induction 1 as [|t l Ht _ IH]; simpl; [done|]. by rewrite Ht. Qed.

(** With a session, a cached stream and a button, [enableLocalStream] runs
    to its end: the tracks are switched and the shared channel reconciled
    when the state changes, and the button class is updated. *)
Lemma enableLocalStream_present
    (w : World) (uid : string) (enable : bool) (h sid : nat)
    (cls : gset string) :
  session w uid = Some h →
  localStreams (this w) !! uid = Some sid →
  talkieButtons (this w) !! uid = Some cls →
  enableLocalStream uid enable w =
    (with_this (fun t =>
       set_talkieButtons
         (<[uid := if enable
                   then cls ∪ {["sussuros-stream-broadcasting"]}
                   else cls ∖ {["sussuros-stream-broadcasting"]}]>
            (talkieButtons t)) t)
       (if eqb (existsb enabled (getTracks w sid)) enable then w
        else (_disableAvClient enable
                (with_trace (fun t => t ++
                   [Emit {| action := "peer-broadcasting"; userId := uid;
                            data := None; broadcasting := Some enable |}])
                   (with_heap (fun hp =>
                      set_streams
                        (alter (map (set_enabled enable)) sid (streams hp))
                        hp) w))).1),
     Ret tt).
Proof.
  intros Hs Hl Hb.
  assert (Hhas : bool_decide (is_Some (localStreams (this w) !! uid)) = true).
  { apply bool_decide_eq_true_2. by eexists. }
  unfold enableLocalStream, isLocalStreamEnabled.
  repeat (progress (mrun_els;
                    rewrite ?(peers_has_true _ _ _ Hs), ?Hhas, ?Hl)).
  destruct (eqb (existsb enabled (getTracks w sid)) enable);
    repeat (progress (mrun_els; rewrite ?Hl)).
  - destruct enable; mrun_els; by rewrite Hb.
  - match goal with |- context [_disableAvClient enable ?w0] =>
      destruct (disableAvClient_frame enable w0)
        as (w' & Hrun & _ & _ & _ & _ & _ & _ & Htb) end.
    rewrite Hrun; proj. destruct enable; mrun_els;
      rewrite Htb; mrun_els; by rewrite Hb.
Qed.

(** C5: in always-on mode with exclusivity, with the shared channel unmuted
    and broadcasting, enabling the outbound audio of the session with P
    (which has its captured stream, all tracks disabled, and its button)
    leaves the channel not broadcasting, and disabling it right after leaves
    the channel broadcasting again. *)
Theorem exclusivity_round_trip
    (w : World) (av : AvClient) (P : string) (h sid : nat)
    (tracks : list MediaStreamTrack) :
  exclusive_always_on w av →
  muted (game w) = false →
  broadcastFlag av = true →
  session w P = Some h →
  localStreams (this w) !! P = Some sid →
  streams (heap w) !! sid = Some tracks →
  tracks ≠ [] →
  Forall (fun t => enabled t = false) tracks →
  is_Some (talkieButtons (this w) !! P) →
  ∃ w1 w2,
    enableLocalStream P true w = (w1, Ret tt) ∧
    channel_broadcasting w1 = Some false ∧
    enableLocalStream P false w1 = (w2, Ret tt) ∧
    channel_broadcasting w2 = Some true.
Proof.
  intros Hex Hmu Hbf Hs Hl Hst Hne Hoff [cls Hb].
  rewrite (enableLocalStream_present w P true h sid cls Hs Hl Hb).
  rewrite (getTracks_lookup _ _ _ Hst).
  rewrite (existsb_all_disabled _ Hoff). cbn [eqb].
  rewrite (disableAvClient_begin _ av) by exact Hex. proj.
  eexists. eexists. split; [reflexivity|]. split; [reflexivity|].
  set (w1 := with_this _ _).
  assert (Hs1 : session w1 P = Some h) by exact Hs.
  assert (Hl1 : localStreams (this w1) !! P = Some sid) by exact Hl.
  assert (Hb1 : talkieButtons (this w1) !! P =
                  Some (cls ∪ {["sussuros-stream-broadcasting"]})).
  { subst w1. cbn. apply lookup_insert_eq. }
  assert (Hst1 : getTracks w1 sid = map (set_enabled true) tracks).
  { apply getTracks_lookup. subst w1. cbn. rewrite lookup_alter_eq.
    by rewrite Hst. }
  rewrite (enableLocalStream_present w1 P false h sid _ Hs1 Hl1 Hb1).
  rewrite Hst1, (existsb_set_enabled true tracks Hne). cbn [eqb].
  destruct Hex as (Hd & Ht & Hav & Hv & Hh & Hth).
  rewrite (disableAvClient_end_saved _ (set_broadcastFlag false av) true).
  - split; reflexivity.
  - subst w1. repeat split; cbn; done.
  - subst w1. cbn. rewrite Hbf, Hmu. by destruct (exposesBroadcasting av).
Qed.

Lemma exclusivity_round_trip_witness :
  ∃ w1 w2,
    enableLocalStream "u2" true Demo.connected_u2 = (w1, Ret tt) ∧
    channel_broadcasting w1 = Some false ∧
    enableLocalStream "u2" false w1 = (w2, Ret tt) ∧
    channel_broadcasting w2 = Some true.
Proof.
  apply (exclusivity_round_trip Demo.connected_u2 Demo.alwaysOn "u2" 0 0
           [{| enabled := false; readyState := live |}]).
  - repeat split; reflexivity.
  - reflexivity.
  - reflexivity.
  - reflexivity.
  - reflexivity.
  - reflexivity.
  - discriminate.
  - by repeat constructor.
  - by eexists.
Defined.

(** C6, as the code has it: [enableLocalStream] looks at the tables, not at
    the connection state.  Without a session or without a cached outbound
    stream for the id it changes nothing, except for a warning and a
    notification when the session exists and enabling was asked.  With a
    session in any connection state, a cached stream with at least one track
    and a button, it runs to its end and the outbound audio is enabled or
    disabled as asked.  The stream is what carries the flag: outbound audio
    is enabled only while a cached stream exists for the id. *)
Theorem enableLocalStream_guard (w : World) (uid : string) (enable : bool) :
  (session w uid = None ∨ localStreams (this w) !! uid = None →
   enableLocalStream uid enable w =
     (if bool_decide (is_Some (session w uid)) && enable
      then with_trace (fun t =>
             t ++ [Log warn "SUSSURROS.captureErrorAudio"] ++
                  [Notify "SUSSURROS.captureErrorAudio"]) w
      else w, Ret tt)) ∧
  (∀ h sid tracks,
     session w uid = Some h →
     localStreams (this w) !! uid = Some sid →
     streams (heap w) !! sid = Some tracks → tracks ≠ [] →
     is_Some (talkieButtons (this w) !! uid) →
     ∃ w', enableLocalStream uid enable w = (w', Ret tt) ∧
           isLocalStreamEnabled uid w' = (w', Ret enable)) ∧
  ((isLocalStreamEnabled uid w).2 = Ret true →
   is_Some (localStreams (this w) !! uid)).
Proof.
  split; [|split].
  - intros Hguard. unfold enableLocalStream. mrun_els.
    destruct (session w uid) as [h|] eqn:Hs.
    + destruct Hguard as [?|Hl]; [done|].
      rewrite (peers_has_true _ _ _ Hs), Hl.
      rewrite bool_decide_eq_false_2 by (by intros [? ?]).
      rewrite bool_decide_eq_true_2 by (by eexists).
      cbn [negb orb andb]. destruct enable; [|reflexivity].
      destruct w as [t hp g pd tr]. unfold with_trace; proj.
      by rewrite <- app_assoc.
    + rewrite (peers_has_false _ _ Hs).
      rewrite (bool_decide_eq_false_2 (is_Some None)) by (by intros [? ?]).
      reflexivity.
  - intros h sid tracks Hs Hl Hst Hne [cls Hb].
    rewrite (enableLocalStream_present w uid enable h sid cls Hs Hl Hb).
    eexists. split; [reflexivity|].
    unfold isLocalStreamEnabled, gets. f_equal. f_equal.
    rewrite (getTracks_lookup _ _ _ Hst).
    destruct (eqb (existsb enabled tracks) enable) eqn:Heq.
    + cbn. rewrite Hl. unfold getTracks. cbn. rewrite Hst. cbn.
      by apply eqb_prop.
    + match goal with |- context [_disableAvClient enable ?w0] =>
        destruct (disableAvClient_frame enable w0)
          as (w' & Hrun & Hheap & _ & _ & _ & _ & Hls & _) end.
      rewrite Hrun. cbn. rewrite Hls. cbn. rewrite Hl.
      unfold getTracks. cbn. rewrite Hheap. cbn.
      rewrite lookup_alter_eq, Hst. cbn.
      by apply existsb_set_enabled.
  - unfold isLocalStreamEnabled, gets. cbn.
    destruct (localStreams (this w) !! uid); [by eexists|discriminate].
Qed.

Lemma enableLocalStream_guard_witness :
  enableLocalStream "u3" true Demo.connected_u2 = (Demo.connected_u2, Ret tt) ∧
  enableLocalStream "u2" true Demo.connecting =
    (with_trace (fun t =>
       t ++ [Log warn "SUSSURROS.captureErrorAudio"] ++
            [Notify "SUSSURROS.captureErrorAudio"]) Demo.connecting, Ret tt) ∧
  (∃ w', enableLocalStream "u2" true Demo.late_attached = (w', Ret tt) ∧
         isLocalStreamEnabled "u2" w' = (w', Ret true)).
Proof.
  split; [|split].
  - rewrite (proj1 (enableLocalStream_guard Demo.connected_u2 "u3" true))
      by (left; vm_compute; reflexivity).
    vm_compute. reflexivity.
  - rewrite (proj1 (enableLocalStream_guard Demo.connecting "u2" true))
      by (right; vm_compute; reflexivity).
    vm_compute. reflexivity.
  - apply (proj1 (proj2 (enableLocalStream_guard Demo.late_attached "u2" true))
             1 0 [{| enabled := false; readyState := live |}]).
    + vm_compute; reflexivity.
    + vm_compute; reflexivity.
    + vm_compute; reflexivity.
    + discriminate.
    + apply (bool_decide_unpack _). vm_compute. exact I.
Defined.

(** C6 as stated fails: in [Demo.late_attached] the session of u2 is still
    negotiating and has a cached stream; enabling the outbound audio takes
    effect although the transport does not report connected. *)
Lemma outbound_enabled_while_negotiating :
  ¬ outbound_enabled_only_connected Demo.late_attached "u2".
Proof.
  unfold outbound_enabled_only_connected. intros H.
  destruct H as (h & Hs & Hc); [reflexivity|].
  vm_compute in Hs. injection Hs as <-. vm_compute in Hc. discriminate.
Qed.

(** ** The capture that resolves late *)

Ltac mrun_cap :=
  cbv beta iota zeta delta
    [bind or_else and_then when gets modify ret throw try_catch log
     socket_emit effect peers_has peer_call negb andb orb
     getUserMedia_resolved getUserMedia_then attachLocalStream
     new_MediaStream
     with_this with_heap with_game with_pending with_trace
     set_peers set_audioElements set_remoteStreams set_localStreams
     set_talkieButtons set_handles set_streams];
  proj.

(** A capture that resolves while the table has no session for the id: the
    stream is stored in [localStreams], the call of [addStream] on the
    missing handle throws, and the [.catch] handler logs it. *)
Lemma getUserMedia_resolved_no_session
    (w : World) (uid : string) (tracks : list MediaStreamTrack) :
  session w uid = None →
  getUserMedia_resolved uid tracks w =
    (with_trace (fun t =>
       t ++ [Log debug "Got user audio:";
             Log debug "Adding user audio to stream (";
             Log error "Error getting audio device:"])
       (with_this (fun t =>
          set_localStreams (<[uid := nextStream (heap w)]> (localStreams t)) t)
          (with_heap (fun hp =>
             {| handles := handles hp;
                streams := <[nextStream hp := tracks]> (streams hp);
                nextHandle := nextHandle hp;
                nextStream := S (nextStream hp) |})
             (with_pending (remove_first uid) w))), Ret tt).
Proof.
  intros Hs. mrun_cap.
  change (session _ uid) with (session w uid). rewrite Hs.
  destruct w as [t hp g pd tr]. proj. by rewrite <- !app_assoc.
Qed.

Lemma closePeer_returns_absent (w0 w : World) (uid : string) :
  closePeer uid w0 = (w, Ret tt) → session w uid = None.
Proof.
  intros Hrun. destruct (talkieButtons (this w0) !! uid) as [cls|] eqn:Hb.
  - rewrite (closePeer_run _ _ cls Hb) in Hrun. injection Hrun as <-.
    apply (JsMapFacts.get_delete_eq (V:=nat)).
  - destruct (closePeer_no_button w0 uid Hb) as (w1 & Hthrow & _).
    rewrite Hthrow in Hrun. discriminate.
Qed.

(** What a capture does that resolves after [closePeer] ran for the
    participant: the stream is stored in [localStreams], then the call of
    [addStream] on the missing session throws, which skips the
    [enableLocalStream(userId, false)] that follows it, and the [.catch]
    handler logs the exception.  No transport is called and the tracks are
    left exactly as captured. *)
Theorem late_capture_after_close
    (w0 w : World) (uid : string) (tracks : list MediaStreamTrack) :
  closePeer uid w0 = (w, Ret tt) →
  ∃ w', getUserMedia_resolved uid tracks w = (w', Ret tt) ∧
        (∀ h c, Transport h c ∈ trace w' → Transport h c ∈ trace w) ∧
        handles (heap w') = handles (heap w) ∧
        Log error "Error getting audio device:" ∈ trace w' ∧
        localStreams (this w') !! uid = Some (nextStream (heap w)) ∧
        streams (heap w') !! nextStream (heap w) = Some tracks.
Proof.
  intros Hclosed. apply closePeer_returns_absent in Hclosed.
  rewrite (getUserMedia_resolved_no_session _ _ _ Hclosed).
  eexists. split; [reflexivity|]. cbn.
  split; [|split; [done|split; [|split]]].
  - intros h c Hin. apply elem_of_app in Hin as [Hin|Hin]; [done|].
    repeat (apply elem_of_cons in Hin as [Hin|Hin]; [discriminate|]).
    by apply elem_of_nil in Hin.
  - apply elem_of_app; right. do 2 right. by left.
  - apply lookup_insert_eq.
  - apply lookup_insert_eq.
Qed.

Lemma late_capture_after_close_witness :
  ∃ w', getUserMedia_resolved "u2" [Demo.mic] Demo.closed_early =
          (w', Ret tt) ∧
        handles (heap w') = handles (heap Demo.closed_early) ∧
        localStreams (this w') !! "u2" = Some 0 ∧
        streams (heap w') !! 0 = Some [Demo.mic].
Proof.
  assert (Hclosed : closePeer "u2" Demo.connecting =
                      (Demo.closed_early, Ret tt)) by (vm_compute; reflexivity).
  destruct (late_capture_after_close Demo.connecting Demo.closed_early "u2"
              [Demo.mic] Hclosed)
    as (w' & Hrun & _ & Hh & _ & Hl & Hst).
  exists w'. split; [exact Hrun|]. split; [exact Hh|].
  split; [exact Hl|exact Hst].
Defined.

(** The capture of u2 resolves after [closePeer]: the track of the delivered
    stream is not stopped. *)
Lemma late_capture_not_released :
  ¬ late_capture_released Demo.closed_early "u2" [Demo.mic].
Proof.
  intros [Hrel _]. unfold released in Hrel.
  vm_compute in Hrel. apply Forall_cons in Hrel as [Hrel _]. discriminate.
Qed.

(** C3 at the failing input: the capture of u2 is requested when its
    transport connects ([Demo.connecting]), [closePeer] completes for u2
    before the capture resolves ([Demo.closed_early]), and then the capture
    resolves with one microphone track.  The stream is not attached to any
    transport, but it is not released either: there is no session for u2,
    the stream sits in [localStreams] and its track is live and enabled; the
    exception of the failed attach was logged as a device error. *)
Theorem late_capture_stays_live :
  pending Demo.connecting = ["u2"] ∧
  closePeer "u2" Demo.connecting = (Demo.closed_early, Ret tt) ∧
  (getUserMedia_resolved "u2" [Demo.mic] Demo.closed_early).2 = Ret tt ∧
  session (getUserMedia_resolved "u2" [Demo.mic] Demo.closed_early).1 "u2" =
    None ∧
  localStreams
    (this (getUserMedia_resolved "u2" [Demo.mic] Demo.closed_early).1)
    !! "u2" = Some 0 ∧
  streams (heap (getUserMedia_resolved "u2" [Demo.mic] Demo.closed_early).1)
    !! 0 = Some [{| enabled := true; readyState := live |}] ∧
  trace (getUserMedia_resolved "u2" [Demo.mic] Demo.closed_early).1 =
    trace Demo.closed_early ++
    [Log debug "Got user audio:"; Log debug "Adding user audio to stream (";
     Log error "Error getting audio device:"].
Proof.
  split; [vm_compute; reflexivity|].
  split; [vm_compute; reflexivity|].
  split; [vm_compute; reflexivity|].
  split; [vm_compute; reflexivity|].
  split; [vm_compute; reflexivity|].
  split; vm_compute; reflexivity.
Qed.

(** * Further properties of the code *)

Ltac mx :=
  cbv beta iota zeta delta
    [bind or_else and_then when gets modify ret throw try_catch log
     socket_emit effect peers_has peer_connected peer_call negb andb orb
     forEach_track peer_destroy button_addClass button_removeClass
     new_SimplePeer new_MediaStream
     with_this with_heap with_game with_pending with_trace
     set_peers set_audioElements set_remoteStreams set_localStreams
     set_talkieButtons set_savedAvEnabledState set_saved set_handles
     set_streams set_muted set_avClient];
  proj.

(** ** signal *)

(** X1: [signal] never throws.  With a session in the table, in whatever
    connection state, the payload goes to the handle of that session and
    nothing else changes.  Without one, a responder handle (initiator false)
    is created first, the player list is asked to render, and the payload
    goes to the new handle; the sessions of the other participants stay. *)
Theorem signal_forwards_or_creates (w : World) (uid : string)
    (d : option string) :
  (∀ h, session w uid = Some h →
        signal uid d w =
          (with_trace (fun t => t ++ [Transport h (CallSignal d)]) w,
           Ret tt)) ∧
  (session w uid = None →
   ∃ w', signal uid d w = (w', Ret tt) ∧
         session w' uid = Some (nextHandle (heap w)) ∧
         handles (heap w') !! nextHandle (heap w) =
           Some {| initiator := false; connected := false;
                   destroyed := false |} ∧
         trace w' =
           trace w ++ [Render; Transport (nextHandle (heap w)) (CallSignal d)] ∧
         ∀ other, other ≠ uid → session w' other = session w other).
Proof.
  split.
  - intros h Hs. unfold signal. mx.
    rewrite (peers_has_true _ _ _ Hs). mx. by rewrite Hs.
  - intros Hs. unfold signal, setupPeer. mx.
    rewrite (peers_has_false _ _ Hs). mx.
    unfold session at 1. proj.
    rewrite (JsMapFacts.get_set_eq (V:=nat)).
    eexists. split; [reflexivity|]. proj.
    split; [apply (JsMapFacts.get_set_eq (V:=nat))|].
    split; [apply lookup_insert_eq|].
    split; [by rewrite <- app_assoc|].
    intros other Hne. unfold session. proj.
    by apply (JsMapFacts.get_set_ne (V:=nat)).
Qed.

Lemma signal_forwards_or_creates_witness :
  signal "u2" (Some "offer") Demo.negotiating =
    (with_trace (fun t => t ++ [Transport 0 (CallSignal (Some "offer"))])
       Demo.negotiating, Ret tt) ∧
  ∃ w', signal "u3" (Some "offer") Demo.negotiating = (w', Ret tt) ∧
        session w' "u3" = Some 1 ∧ session w' "u2" = Some 0.
Proof.
  split.
  - apply (proj1 (signal_forwards_or_creates Demo.negotiating "u2"
                    (Some "offer"))).
    vm_compute. reflexivity.
  - destruct (proj2 (signal_forwards_or_creates Demo.negotiating "u3"
                       (Some "offer")))
      as (w' & Hrun & Hs & _ & _ & Hother); [vm_compute; reflexivity|].
    exists w'. split; [exact Hrun|]. split; [exact Hs|].
    rewrite Hother by discriminate. vm_compute. reflexivity.
Defined.

(** ** closePeer, again *)

Lemma JsMap_delete_twice {V} (k : string) (m : list (string * V)) :
  JsMap.delete k (JsMap.delete k m) = JsMap.delete k m.
Proof.
  apply JsMapFacts.delete_absent. apply JsMapFacts.get_None_not_key.
  apply JsMapFacts.get_delete_eq.
Qed.

(** X2: closing is idempotent.  Once [closePeer] has completed for a
    participant, a second [closePeer] for it (the close event the destroyed
    transport raises, or a close message of the remote side) completes too
    and leaves the world exactly as it is: no call on the old handle, no
    entry touched. *)
Theorem closePeer_idempotent (w w1 : World) (uid : string) :
  closePeer uid w = (w1, Ret tt) → closePeer uid w1 = (w1, Ret tt).
Proof.
  intros Hrun.
  destruct (talkieButtons (this w) !! uid) as [cls|] eqn:Hb.
  2: { destruct (closePeer_no_button w uid Hb) as (w2 & Hthrow & _).
       rewrite Hthrow in Hrun. discriminate. }
  rewrite (closePeer_run _ _ cls Hb) in Hrun. injection Hrun as <-.
  set (cls1 := cls ∖ {["sussuros-stream-broadcasting"]}
                   ∖ {["sussuros-stream-connected"]}
                   ∖ {["sussuros-peer-connected"]}).
  rewrite (closePeer_run _ _ cls1) by (cbn; apply lookup_insert_eq).
  f_equal. unfold closed at 1.
  assert (Hs : session (closed uid cls w) uid = None).
  { unfold session, closed. cbn. apply (JsMapFacts.get_delete_eq (V:=nat)). }
  rewrite Hs.
  assert (Hr : remoteStreams (this (closed uid cls w)) !! uid = None)
    by (cbn; apply lookup_delete_eq).
  assert (Hl : localStreams (this (closed uid cls w)) !! uid = None)
    by (cbn; apply lookup_delete_eq).
  rewrite Hr, Hl. cbn [stop_stream].
  unfold closed. cbn [this heap game pending trace peers audioElements
    remoteStreams localStreams talkieButtons savedAvEnabledState
    _savedMutedFlag _savedBroadcasting handles streams nextHandle nextStream].
  rewrite JsMap_delete_twice, !delete_delete_eq, insert_insert_eq.
  replace (cls1 ∖ {["sussuros-stream-broadcasting"]}
                ∖ {["sussuros-stream-connected"]}
                ∖ {["sussuros-peer-connected"]}) with cls1
    by (subst cls1; set_solver).
  reflexivity.
Qed.

Lemma closePeer_idempotent_witness :
  closePeer "u2" Demo.closed_early = (Demo.closed_early, Ret tt).
Proof.
  apply (closePeer_idempotent Demo.connecting Demo.closed_early "u2").
  vm_compute. reflexivity.
Defined.

(** What [closePeer] leaves behind when it throws. *)
Lemma closePeer_failed (w : World) (uid : string) :
  talkieButtons (this w) !! uid = None →
  ∃ w' e, closePeer uid w = (w', Throw e) ∧
    audioElements (this w') !! uid = None ∧
    remoteStreams (this w') !! uid = None ∧
    (∀ sid, remoteStreams (this w) !! uid = Some sid → released w' sid) ∧
    (∀ sid, localStreams (this w) !! uid = Some sid → released w' sid) ∧
    localStreams (this w') = localStreams (this w) ∧
    peers (this w') = peers (this w) ∧
    handles (heap w') = handles (heap w) ∧
    trace w' = trace w.
Proof.
  intros Hb. unfold closePeer, released, getTracks. mx.
  destruct (remoteStreams (this w) !! uid) as [rsid|] eqn:Hr; mx;
    (destruct (localStreams (this w) !! uid) as [lsid|] eqn:Hl; mx);
    rewrite Hb; (eexists _, _; split; [reflexivity|]); proj;
    repeat split; try done; try apply lookup_delete_eq;
    intros sid Heq; simplify_eq.
  - apply (released_stop_stream _ (Some lsid)); left.
    apply (released_stop_stream _ (Some sid)); by right.
  - apply (released_stop_stream _ (Some sid)); by right.
  - apply (released_stop_stream _ (Some sid)); by right.
  - apply (released_stop_stream _ (Some sid)); by right.
Qed.

(** X3: [closePeer] for a participant without a button fails half way.  It
    throws a TypeError after the audio element and the inbound stream were
    dropped and the tracks of both streams stopped, and before the rest:
    the outbound stream stays in [localStreams], the session stays in
    [peers], its handle is not destroyed and no call reaches the
    transport. *)
Theorem closePeer_without_button_stops_half_way (w : World) (uid : string) :
  talkieButtons (this w) !! uid = None →
  ∃ w' e, closePeer uid w = (w', Throw e) ∧
    audioElements (this w') !! uid = None ∧
    remoteStreams (this w') !! uid = None ∧
    (∀ sid, remoteStreams (this w) !! uid = Some sid → released w' sid) ∧
    (∀ sid, localStreams (this w) !! uid = Some sid → released w' sid) ∧
    localStreams (this w') = localStreams (this w) ∧
    peers (this w') = peers (this w) ∧
    handles (heap w') = handles (heap w) ∧
    trace w' = trace w.
Proof. exact (closePeer_failed w uid). Qed.

Lemma closePeer_without_button_stops_half_way_witness :
  ∃ w' e, closePeer "u9" Demo.connected_u2 = (w', Throw e) ∧
          peers (this w') = peers (this Demo.connected_u2).
Proof.
  destruct (closePeer_without_button_stops_half_way Demo.connected_u2 "u9")
    as (w' & e & Hrun & _ & _ & _ & _ & _ & Hp & _);
    [vm_compute; reflexivity|].
  by exists w', e.
Defined.

(** ** closeAllPeers, again *)

Lemma closeOne_failed (w : World) (uid : string) :
  talkieButtons (this w) !! uid = None →
  ∃ w' e, closeOne uid w = (w', Throw e) ∧
          peers (this w') = peers (this w) ∧
          trace w' =
            trace w ++ [Log debug "Closing peer (";
                        Emit {| action := "peer-close"; userId := uid;
                                data := None; broadcasting := None |}].
Proof.
  intros Hb. unfold closeOne. munfold.
  match goal with |- context [closePeer uid ?w0] =>
    destruct (closePeer_failed w0 uid) as
      (w' & e & Hrun & _ & _ & _ & _ & _ & Hp & _ & Htr); [exact Hb|] end.
  rewrite Hrun. exists w', e. split; [reflexivity|].
  split; [exact Hp|]. rewrite Htr. cbn. by rewrite <- app_assoc.
Qed.

Lemma forEach_close_until (k : string) (h : nat) (post pre : list (string * nat)) :
  ∀ w, peers (this w) = pre ++ (k, h) :: post →
  NoDup (JsMap.keys (pre ++ (k, h) :: post)) →
  (∀ uid, uid ∈ JsMap.keys pre → is_Some (talkieButtons (this w) !! uid)) →
  talkieButtons (this w) !! k = None →
  ∃ w' e, forEach_peers (JsMap.keys (pre ++ (k, h) :: post)) closeOne w =
            (w', Throw e) ∧
          peers (this w') = (k, h) :: post ∧
          trace w' =
            trace w ++ flat_map close_trace pre ++
            [Log debug "Closing peer (";
             Emit {| action := "peer-close"; userId := k;
                     data := None; broadcasting := None |}].
Proof.
  induction pre as [|[k0 h0] pre IH]; intros w Hps Hnd Hbtn Hk.
  - unfold JsMap.keys. cbn [app fmap list_fmap]. rewrite forEach_peers_cons.
    cbn [fst].
    assert (Hs : session w k = Some h).
    { unfold session. rewrite Hps. simpl. by rewrite decide_True. }
    rewrite (peers_has_true _ _ _ Hs).
    destruct (closeOne_failed w k Hk) as (w' & e & Hrun & Hp & Htr).
    rewrite Hrun. exists w', e. split; [reflexivity|].
    split; [by rewrite Hp|]. exact Htr.
  - unfold JsMap.keys in *. rewrite <- app_comm_cons in *.
    rewrite fmap_cons in Hnd, Hbtn |- *. cbn [fst] in *.
    apply NoDup_cons in Hnd as [Hk0 Hnd].
    destruct (Hbtn k0) as [cls Hcls]; [by left|].
    assert (Hs : session w k0 = Some h0).
    { unfold session. rewrite Hps. simpl. by rewrite decide_True. }
    rewrite forEach_peers_cons, (peers_has_true _ _ _ Hs).
    rewrite (closeOne_run _ _ cls) by exact Hcls.
    set (w0 := with_trace _ w).
    assert (Hne : k0 ≠ k).
    { intros ->. apply Hk0. rewrite fmap_app, fmap_cons.
      apply elem_of_app; right. by left. }
    destruct (IH (closed k0 cls w0)) as (w' & e & Hrun & Hp & Htr).
    + cbn. rewrite Hps. rewrite JsMapFacts.keys_delete_cons.
      by apply JsMapFacts.delete_absent.
    + exact Hnd.
    + intros uid Hin. cbn.
      destruct (decide (k0 = uid)) as [->|Hne'].
      * rewrite lookup_insert_eq. by eexists.
      * rewrite lookup_insert_ne by done. apply Hbtn. by right.
    + cbn. by rewrite lookup_insert_ne.
    + exists w', e. split; [exact Hrun|]. split; [exact Hp|].
      rewrite Htr. cbn. unfold session. cbn. rewrite Hps. simpl.
      rewrite decide_True by done. cbn. by rewrite <- !app_assoc.
Qed.

(** X4: [closeAllPeers] gives up at the first participant without a button.
    The sessions before it in the table are closed as usual, the close
    notification for that participant is still emitted, then [closePeer]
    throws and the exception leaves [closeAllPeers]: the session of that
    participant and every later one stay in the table, and the later
    participants are not notified. *)
Theorem closeAllPeers_stops_at_missing_button
    (w : World) (pre post : list (string * nat)) (k : string) (h : nat) :
  peers (this w) = pre ++ (k, h) :: post →
  NoDup (JsMap.keys (peers (this w))) →
  (∀ uid, uid ∈ JsMap.keys pre → is_Some (talkieButtons (this w) !! uid)) →
  talkieButtons (this w) !! k = None →
  ∃ w' e, closeAllPeers w = (w', Throw e) ∧
          peers (this w') = (k, h) :: post ∧
          trace w' =
            trace w ++ flat_map close_trace pre ++
            [Log debug "Closing peer (";
             Emit {| action := "peer-close"; userId := k;
                     data := None; broadcasting := None |}].
Proof.
  intros Hps Hnd Hbtn Hk. unfold closeAllPeers. munfold.
  rewrite Hps in Hnd |- *.
  by apply forEach_close_until.
Qed.

Lemma closeAllPeers_stops_at_missing_button_witness :
  ∃ w' e, closeAllPeers with_stranger = (w', Throw e) ∧
          peers (this w') = [("u9", 2)].
Proof.
  destruct (closeAllPeers_stops_at_missing_button with_stranger
              [("u2", 0); ("u3", 1)] [] "u9" 2)
    as (w' & e & Hrun & Hp & _).
  - vm_compute. reflexivity.
  - apply (bool_decide_unpack _). vm_compute. exact I.
  - intros uid Hin. apply elem_of_cons in Hin as [->|Hin].
    + apply (bool_decide_unpack _). vm_compute. exact I.
    + apply list_elem_of_singleton in Hin as ->.
      apply (bool_decide_unpack _). vm_compute. exact I.
  - vm_compute. reflexivity.
  - exists w', e. split; [exact Hrun|exact Hp].
Defined.

(** ** enableLocalStream and toggleLocalStream, again *)

Lemma existsb_set_disabled (l : list MediaStreamTrack) :
  existsb enabled (map (set_enabled false) l) = false.
Proof. induction l; simpl; done. Qed.

(** [_disableAvClient] only adds to the trace. *)
Lemma disableAvClient_trace_grows (b : bool) (w : World) :
  ∃ l, trace (_disableAvClient b w).1 = trace w ++ l.
Proof.
  open_world w. mrun_av.
  destruct dis, tog; cbn [negb orb]; try (by exists []; rewrite app_nil_r).
  destruct avc as [[va ex ht th bf]|]; mrun_av.
  - destruct va, b; mrun_av.
    + destruct ht, th; mrun_av; try (by exists []; rewrite app_nil_r).
      destruct mu; mrun_av; rewrite <- ?app_assoc; by eexists.
    + destruct sbc as [sb|]; mrun_av;
        (destruct ht, th; mrun_av; try (by exists []; rewrite app_nil_r));
        destruct mu, sav; mrun_av; cbn; rewrite <- ?app_assoc; by eexists.
    + destruct mu; mrun_av; try (by exists []; rewrite app_nil_r);
        by eexists.
    + destruct mu, sav; mrun_av; cbn; try (by exists []; rewrite app_nil_r);
        by eexists.
  - destruct b; destruct mu; try destruct sav; mrun_av; cbn;
      try (by exists []; rewrite app_nil_r); by eexists.
Qed.

(** What a completed [enableLocalStream] leaves: the tables other than the
    buttons and the handles are as before, the class of the button follows
    the request, and so does the outbound audio. *)
Lemma enableLocalStream_effect
    (w : World) (uid : string) (enable : bool) (h sid : nat)
    (tracks : list MediaStreamTrack) (cls : gset string) :
  session w uid = Some h →
  localStreams (this w) !! uid = Some sid →
  streams (heap w) !! sid = Some tracks →
  tracks ≠ [] ∨ enable = false →
  talkieButtons (this w) !! uid = Some cls →
  ∃ w', enableLocalStream uid enable w = (w', Ret tt) ∧
        peers (this w') = peers (this w) ∧
        localStreams (this w') = localStreams (this w) ∧
        remoteStreams (this w') = remoteStreams (this w) ∧
        audioElements (this w') = audioElements (this w) ∧
        handles (heap w') = handles (heap w) ∧
        pending w' = pending w ∧
        talkieButtons (this w') =
          <[uid := if enable
                   then cls ∪ {["sussuros-stream-broadcasting"]}
                   else cls ∖ {["sussuros-stream-broadcasting"]}]>
            (talkieButtons (this w)) ∧
        (∃ tracks', streams (heap w') !! sid = Some tracks' ∧
                    length tracks' = length tracks ∧
                    existsb enabled tracks' = enable) ∧
        (∀ e, e ∈ trace w → e ∈ trace w').
Proof.
  intros Hs Hl Hst Hne Hb.
  rewrite (enableLocalStream_present w uid enable h sid cls Hs Hl Hb).
  eexists. split; [reflexivity|].
  rewrite (getTracks_lookup _ _ _ Hst).
  destruct (eqb (existsb enabled tracks) enable) eqn:Heq.
  - cbn. repeat split; try done.
    exists tracks. repeat split; [done|by apply eqb_prop].
  - match goal with |- context [_disableAvClient enable ?w0] =>
      destruct (disableAvClient_frame enable w0)
        as (w' & Hrun & Hheap & Hpd & Hp & Hae & Hrs & Hls & Htb);
      destruct (disableAvClient_trace_grows enable w0) as (l & Htr) end.
    rewrite Hrun in Htr |- *. cbn in Htr |- *.
    rewrite Hheap, Hpd, Hp, Hae, Hrs, Hls, Htb, Htr. cbn.
    repeat split; try done.
    2: { intros e He. apply elem_of_app; left. apply elem_of_app. by left. }
    exists (map (set_enabled enable) tracks).
    rewrite lookup_alter_eq, Hst. cbn. split; [done|].
    split; [by rewrite length_map|].
    destruct Hne as [Hne| ->];
      [by apply existsb_set_enabled | apply existsb_set_disabled].
Qed.

(** X5: asking twice for the same outbound state is harmless.  For a session
    with a captured stream and a button, a second [enableLocalStream] with
    the same flag (the mouseleave that follows a mouseup) completes and
    leaves the world exactly as the first left it: no second
    broadcast-state message, no second look at the shared channel. *)
Theorem enableLocalStream_idempotent
    (w : World) (uid : string) (enable : bool) (h sid : nat)
    (tracks : list MediaStreamTrack) :
  session w uid = Some h →
  localStreams (this w) !! uid = Some sid →
  streams (heap w) !! sid = Some tracks →
  tracks ≠ [] →
  is_Some (talkieButtons (this w) !! uid) →
  ∃ w1, enableLocalStream uid enable w = (w1, Ret tt) ∧
        enableLocalStream uid enable w1 = (w1, Ret tt).
Proof.
  intros Hs Hl Hst Hne [cls Hb].
  destruct (enableLocalStream_effect w uid enable h sid tracks cls
              Hs Hl Hst (or_introl Hne) Hb)
    as (w1 & Hrun & Hp & Hls & _ & _ & _ & _ & Htb
          & (tracks1 & Hst1 & _ & Hon) & _).
  exists w1. split; [exact Hrun|].
  assert (Hs1 : session w1 uid = Some h) by (unfold session; by rewrite Hp).
  assert (Hl1 : localStreams (this w1) !! uid = Some sid) by by rewrite Hls.
  assert (Hb1 : talkieButtons (this w1) !! uid =
            Some (if enable
                  then cls ∪ {["sussuros-stream-broadcasting"]}
                  else cls ∖ {["sussuros-stream-broadcasting"]})).
  { rewrite Htb. apply lookup_insert_eq. }
  rewrite (enableLocalStream_present w1 uid enable h sid _ Hs1 Hl1 Hb1).
  rewrite (getTracks_lookup _ _ _ Hst1), Hon.
  replace (eqb enable enable) with true by (by destruct enable).
  f_equal. destruct w1 as [[ps aes rss lss tbs sav smf sbc] hp g pd tr].
  cbn in Hb1 |- *. unfold with_this, set_talkieButtons. cbn.
  do 2 f_equal. apply insert_id. rewrite Hb1. f_equal.
  destruct enable; set_solver.
Qed.

Lemma enableLocalStream_idempotent_witness :
  ∃ w1, enableLocalStream "u2" true Demo.connected_u2 = (w1, Ret tt) ∧
        enableLocalStream "u2" true w1 = (w1, Ret tt).
Proof.
  apply (enableLocalStream_idempotent Demo.connected_u2 "u2" true 0 0
           [{| enabled := false; readyState := live |}]).
  - vm_compute; reflexivity.
  - vm_compute; reflexivity.
  - vm_compute; reflexivity.
  - discriminate.
  - apply (bool_decide_unpack _). vm_compute. exact I.
Defined.

(** X6: [toggleLocalStream] flips the outbound audio of a session that has
    its captured stream and its button: what [isLocalStreamEnabled] answers
    afterwards is the negation of what it answered before.  For a session
    whose capture has not arrived, it only warns and notifies the user, and
    the outbound audio stays off. *)
Theorem toggleLocalStream_flips_or_warns (w : World) (uid : string) (h : nat) :
  session w uid = Some h →
  (∀ sid tracks,
     localStreams (this w) !! uid = Some sid →
     streams (heap w) !! sid = Some tracks → tracks ≠ [] →
     is_Some (talkieButtons (this w) !! uid) →
     ∃ w', toggleLocalStream uid w = (w', Ret tt) ∧
           isLocalStreamEnabled uid w' =
             (w', Ret (negb (existsb enabled tracks)))) ∧
  (localStreams (this w) !! uid = None →
   toggleLocalStream uid w =
     (with_trace (fun t =>
        t ++ [Log warn "SUSSURROS.captureErrorAudio"] ++
             [Notify "SUSSURROS.captureErrorAudio"]) w, Ret tt) ∧
   isLocalStreamEnabled uid w = (w, Ret false)).
Proof.
  intros Hs. split.
  - intros sid tracks Hl Hst Hne [cls Hb].
    unfold toggleLocalStream, bind at 1, isLocalStreamEnabled at 1, gets.
    rewrite Hl, (getTracks_lookup _ _ _ Hst).
    destruct (enableLocalStream_effect w uid (negb (existsb enabled tracks))
                h sid tracks cls Hs Hl Hst (or_introl Hne) Hb)
      as (w' & Hrun & _ & Hls & _ & _ & _ & _ & _
         & (tracks' & Hst' & _ & Hon) & _).
    exists w'. split; [exact Hrun|].
    unfold isLocalStreamEnabled, gets.
    by rewrite Hls, Hl, (getTracks_lookup _ _ _ Hst'), Hon.
  - intros Hl.
    assert (Hoff : isLocalStreamEnabled uid w = (w, Ret false)).
    { unfold isLocalStreamEnabled, gets. by rewrite Hl. }
    split; [|exact Hoff].
    unfold toggleLocalStream, bind at 1. rewrite Hoff. cbn [negb].
    unfold enableLocalStream. mx.
    rewrite (peers_has_true _ _ _ Hs), Hl.
    rewrite bool_decide_eq_false_2 by (by intros [? ?]).
    mx. destruct w as [t hp g pd tr]. cbn. by rewrite <- app_assoc.
Qed.

Lemma toggleLocalStream_flips_or_warns_witness :
  (∃ w', toggleLocalStream "u2" Demo.connected_u2 = (w', Ret tt) ∧
         isLocalStreamEnabled "u2" w' = (w', Ret true)) ∧
  isLocalStreamEnabled "u2" Demo.connecting = (Demo.connecting, Ret false).
Proof.
  split.
  - apply (proj1 (toggleLocalStream_flips_or_warns Demo.connected_u2 "u2" 0
                    ltac:(vm_compute; reflexivity))
             0 [{| enabled := false; readyState := live |}]).
    + vm_compute; reflexivity.
    + vm_compute; reflexivity.
    + discriminate.
    + apply (bool_decide_unpack _). vm_compute. exact I.
  - apply (proj2 (toggleLocalStream_flips_or_warns Demo.connecting "u2" 0
                    ltac:(vm_compute; reflexivity))).
    vm_compute; reflexivity.
Defined.

(** ** _disableAvClient, again *)

(** X7: outside always-on mode the microphone is muted for the whisper and
    put back afterwards.  With exclusivity configured and the shared channel
    not in always-on mode, [_disableAvClient(true)] leaves the user muted,
    and [_disableAvClient(false)] right after restores the mute setting the
    user had before, muted or not; the AV client itself is never touched. *)
Theorem mute_round_trip (w : World) :
  exclusive_muting w →
  ∃ w1 w2, _disableAvClient true w = (w1, Ret tt) ∧
           muted (game w1) = true ∧
           _disableAvClient false w1 = (w2, Ret tt) ∧
           muted (game w2) = muted (game w) ∧
           avClient (game w2) = avClient (game w).
Proof.
  open_world w. intros (Hd & Ht & Hv). cbn in Hd, Ht, Hv. subst dis tog.
  destruct avc as [[va ex ht th bf]|]; cbn in Hv; try subst va;
    destruct mu; mrun_av; by eexists _, _.
Qed.

Lemma mute_round_trip_witness :
  ∃ w1 w2,
    _disableAvClient true (with_game (set_avClient None) Demo.start) =
      (w1, Ret tt) ∧
    muted (game w1) = true ∧
    _disableAvClient false w1 = (w2, Ret tt) ∧
    muted (game w2) = false ∧
    avClient (game w2) = None.
Proof.
  apply (mute_round_trip (with_game (set_avClient None) Demo.start)).
  repeat split; reflexivity.
Defined.

(** X8: in always-on mode the whisper suspends the broadcast and gives it
    back.  With exclusivity configured, [_disableAvClient(true)] stops the
    shared channel from broadcasting whatever it did before, and
    [_disableAvClient(false)] right after sets the broadcast switch to what
    was saved: the value the channel had when it exposes its [broadcasting]
    property, and "not muted" when it does not.  The saved state is cleared
    and the mute setting is never changed. *)
Theorem always_on_round_trip (w : World) (av : AvClient) :
  exclusive_always_on w av →
  ∃ w1 w2, _disableAvClient true w = (w1, Ret tt) ∧
           channel_broadcasting w1 = Some false ∧
           _disableAvClient false w1 = (w2, Ret tt) ∧
           channel_broadcasting w2 =
             Some (if exposesBroadcasting av then broadcastFlag av
                   else negb (muted (game w))) ∧
           _savedMutedFlag (this w2) = None ∧
           _savedBroadcasting (this w2) = None ∧
           muted (game w2) = muted (game w).
Proof.
  intros Hex. pose proof Hex as (Hd & Ht & Hav & Hv & Hh & Hth).
  rewrite (disableAvClient_begin w av Hex).
  eexists _, _. split; [reflexivity|]. split; [reflexivity|].
  rewrite (disableAvClient_end_saved _ (set_broadcastFlag false av)
             (if exposesBroadcasting av then broadcastFlag av
              else negb (muted (game w)))).
  - repeat split; reflexivity.
  - repeat split; cbn; done.
  - reflexivity.
Qed.

Lemma always_on_round_trip_witness :
  ∃ w1 w2, _disableAvClient true Demo.muted_idle = (w1, Ret tt) ∧
           channel_broadcasting w1 = Some false ∧
           _disableAvClient false w1 = (w2, Ret tt) ∧
           channel_broadcasting w2 = Some false ∧
           _savedMutedFlag (this w2) = None ∧
           _savedBroadcasting (this w2) = None ∧
           muted (game w2) = true.
Proof.
  apply (always_on_round_trip Demo.muted_idle
           (set_broadcastFlag false Demo.alwaysOn)).
  repeat split; reflexivity.
Defined.

(** X9: two whispers that overlap share the one saved state.  In always-on
    mode with a channel that exposes [broadcasting], a second
    [_disableAvClient(true)] saves the suspended channel; the first
    [_disableAvClient(false)] therefore leaves the channel not broadcasting
    while the other whisper goes on, and the second, finding nothing saved,
    switches it to broadcasting, whatever the channel did before the two
    whispers. *)
Theorem overlapping_whispers (w : World) (av : AvClient) :
  exclusive_always_on w av →
  exposesBroadcasting av = true →
  ∃ w1 w2 w3 w4,
    _disableAvClient true w = (w1, Ret tt) ∧
    _disableAvClient true w1 = (w2, Ret tt) ∧
    _savedBroadcasting (this w2) = Some false ∧
    _disableAvClient false w2 = (w3, Ret tt) ∧
    channel_broadcasting w3 = Some false ∧
    _disableAvClient false w3 = (w4, Ret tt) ∧
    channel_broadcasting w4 = Some true.
Proof.
  intros Hex Hexp. pose proof Hex as (Hd & Ht & Hav & Hv & Hh & Hth).
  rewrite (disableAvClient_begin w av Hex).
  eexists _, _, _, _. split; [reflexivity|].
  rewrite (disableAvClient_begin _ (set_broadcastFlag false av))
    by (repeat split; cbn; done).
  split; [reflexivity|]. split; [cbn; by rewrite Hexp|].
  rewrite (disableAvClient_end_saved _ (set_broadcastFlag false av) false);
    [|repeat split; cbn; done|cbn; by rewrite Hexp].
  split; [reflexivity|]. split; [reflexivity|].
  rewrite (disableAvClient_end_unsaved _ (set_broadcastFlag false av) None);
    [|repeat split; cbn; done|reflexivity|reflexivity].
  split; reflexivity.
Qed.

Lemma overlapping_whispers_witness :
  ∃ w1 w2 w3 w4,
    _disableAvClient true Demo.muted_idle = (w1, Ret tt) ∧
    _disableAvClient true w1 = (w2, Ret tt) ∧
    _savedBroadcasting (this w2) = Some false ∧
    _disableAvClient false w2 = (w3, Ret tt) ∧
    channel_broadcasting w3 = Some false ∧
    _disableAvClient false w3 = (w4, Ret tt) ∧
    channel_broadcasting w4 = Some true.
Proof.
  apply (overlapping_whispers Demo.muted_idle
           (set_broadcastFlag false Demo.alwaysOn)).
  - repeat split; reflexivity.
  - reflexivity.
Defined.

(** X10: a host whose [toggleBroadcast] raises does not break the whisper.
    In always-on mode with exclusivity, [_disableAvClient(true)] catches the
    exception, logs it and falls back to muting the microphone: it returns
    normally, the user ends muted, the broadcast switch of the channel is as
    it was, and the flags saved before the failed call stay saved. *)
Theorem toggleBroadcast_failure_falls_back (w : World) (av : AvClient) :
  disableAvClientSetting (game w) = true →
  toggleBroadcastSetting (game w) = false →
  avClient (game w) = Some av →
  isVoiceAlways av = true →
  hasToggleBroadcast av = true →
  toggleThrows av = true →
  ∃ w', _disableAvClient true w = (w', Ret tt) ∧
        Log error "Error toggling AV broadcast" ∈ trace w' ∧
        muted (game w') = true ∧
        avClient (game w') = Some av ∧
        savedAvEnabledState (this w') = negb (muted (game w)) ∧
        _savedMutedFlag (this w') = Some (muted (game w)) ∧
        is_Some (_savedBroadcasting (this w')).
Proof.
  open_world w. intros Hd Ht Hav Hv Hh Hth.
  cbn in Hd, Ht, Hav. subst dis tog avc.
  destruct av as [va ex ht th bf]. cbn in Hv, Hh, Hth. subst va ht th.
  mrun_av. destruct mu; mrun_av; (eexists; split; [reflexivity|]); cbn.
  - split; [apply elem_of_app; right; by left|]. repeat split; by eexists.
  - split; [apply elem_of_app; left; apply elem_of_app; right; by left|].
    repeat split; by eexists.
Qed.

Lemma toggleBroadcast_failure_falls_back_witness :
  ∃ w', _disableAvClient true
          (with_game (set_avClient
             (Some {| isVoiceAlways := true; exposesBroadcasting := true;
                      hasToggleBroadcast := true; toggleThrows := true;
                      broadcastFlag := true |})) Demo.start) = (w', Ret tt) ∧
        muted (game w') = true.
Proof.
  destruct (toggleBroadcast_failure_falls_back
              (with_game (set_avClient
                 (Some {| isVoiceAlways := true; exposesBroadcasting := true;
                          hasToggleBroadcast := true; toggleThrows := true;
                          broadcastFlag := true |})) Demo.start)
              {| isVoiceAlways := true; exposesBroadcasting := true;
                 hasToggleBroadcast := true; toggleThrows := true;
                 broadcastFlag := true |})
    as (w' & Hrun & _ & Hmu & _); try reflexivity.
  exists w'. split; [exact Hrun|exact Hmu].
Defined.

(** [_disableAvClient] does nothing when exclusivity is off or the module is
    in toggle mode. *)
Lemma disableAvClient_inert (b : bool) (w : World) :
  disableAvClientSetting (game w) = false ∨
    toggleBroadcastSetting (game w) = true →
  _disableAvClient b w = (w, Ret tt).
Proof.
  intros H. unfold _disableAvClient. mx.
  destruct H as [-> | ->]; [reflexivity|].
  by destruct (disableAvClientSetting (game w)).
Qed.

(** X11: with exclusivity switched off, or in toggle mode, the whisper never
    touches the host's audio: whatever [enableLocalStream] is asked and
    however it ends, the mute setting and the AV client are afterwards what
    they were. *)
Theorem enableLocalStream_leaves_host_alone
    (w : World) (uid : string) (enable : bool) :
  disableAvClientSetting (game w) = false ∨
    toggleBroadcastSetting (game w) = true →
  game (enableLocalStream uid enable w).1 = game w.
Proof.
  intros Hoff. unfold enableLocalStream, isLocalStreamEnabled. mx.
  destruct (JsMap.has uid (peers (this w))); mx;
    [|reflexivity].
  destruct (localStreams (this w) !! uid) as [sid|] eqn:Hl.
  2: { rewrite bool_decide_eq_false_2 by (by intros [? ?]). mx.
       by destruct enable. }
  rewrite bool_decide_eq_true_2 by (by eexists).
  repeat (progress (mx; rewrite ?Hl)).
  destruct (eqb (existsb enabled (getTracks w sid)) enable);
    repeat (progress (mx; rewrite ?Hl)).
  - destruct enable; mx;
      destruct (talkieButtons (this w) !! uid); reflexivity.
  - rewrite disableAvClient_inert by exact Hoff. mx.
    destruct enable; mx;
      destruct (talkieButtons (this w) !! uid); reflexivity.
Qed.

Lemma enableLocalStream_leaves_host_alone_witness :
  game (enableLocalStream "u2" true toggle_mode).1 = game toggle_mode.
Proof.
  apply (enableLocalStream_leaves_host_alone toggle_mode "u2" true).
  right. reflexivity.
Defined.


(** ** The capture and the transport callbacks *)

Ltac fold_session w uid :=
  repeat match goal with
  | |- context [session ?w0 uid] =>
      progress change (session w0 uid) with (session w uid)
  end.

(** X12: a capture that resolves for a participant with a session and a
    button is attached, and starts silent.  The delivered stream is stored
    in [localStreams], handed to the handle of the session with
    [addStream], the outbound audio is disabled whatever the tracks looked
    like, and the button is marked stream-connected and not broadcasting. *)
Theorem capture_attaches_disabled
    (w : World) (uid : string) (h : nat) (tracks : list MediaStreamTrack) :
  session w uid = Some h →
  is_Some (talkieButtons (this w) !! uid) →
  ∃ w' cls',
    getUserMedia_resolved uid tracks w = (w', Ret tt) ∧
    localStreams (this w') !! uid = Some (nextStream (heap w)) ∧
    Transport h (CallAddStream (nextStream (heap w))) ∈ trace w' ∧
    isLocalStreamEnabled uid w' = (w', Ret false) ∧
    session w' uid = Some h ∧
    talkieButtons (this w') !! uid = Some cls' ∧
    "sussuros-stream-connected" ∈ cls' ∧
    "sussuros-stream-broadcasting" ∉ cls'.
Proof.
  intros Hs [cls Hb]. mrun_cap. fold_session w uid. rewrite Hs.
  repeat (progress (mrun_cap; rewrite ?lookup_insert_eq)).
  match goal with |- context [enableLocalStream uid false ?w0] =>
    destruct (enableLocalStream_effect w0 uid false h (nextStream (heap w))
                tracks cls)
      as (w1 & Hrun & Hp & Hls & _ & _ & _ & _ & Htb
             & (tracks' & Hst' & _ & Hoff) & Htr) end.
  - exact Hs.
  - cbn. apply lookup_insert_eq.
  - cbn. apply lookup_insert_eq.
  - by right.
  - exact Hb.
  - rewrite Hrun. mrun_cap. unfold button_addClass.
    rewrite Htb. proj. rewrite lookup_insert_eq.
    eexists _, _. split; [reflexivity|]. cbn.
    split; [rewrite Hls; cbn; apply lookup_insert_eq|].
    split; [apply Htr; cbn; apply elem_of_app; right; by left|].
    split.
    { unfold isLocalStreamEnabled, gets. cbn. rewrite Hls. cbn.
      rewrite lookup_insert_eq. unfold getTracks. cbn.
      rewrite Hst'. cbn. by rewrite Hoff. }
    split; [unfold session; cbn; by rewrite Hp|].
    split; [apply lookup_insert_eq|].
    split; set_solver.
Qed.

Lemma capture_attaches_disabled_witness :
  ∃ w' cls',
    getUserMedia_resolved "u2" [Demo.mic] Demo.connecting = (w', Ret tt) ∧
    localStreams (this w') !! "u2" = Some 0 ∧
    Transport 0 (CallAddStream 0) ∈ trace w' ∧
    isLocalStreamEnabled "u2" w' = (w', Ret false) ∧
    session w' "u2" = Some 0 ∧
    talkieButtons (this w') !! "u2" = Some cls' ∧
    "sussuros-stream-connected" ∈ cls' ∧
    "sussuros-stream-broadcasting" ∉ cls'.
Proof.
  apply (capture_attaches_disabled Demo.connecting "u2" 0 [Demo.mic]).
  - vm_compute; reflexivity.
  - apply (bool_decide_unpack _). vm_compute. exact I.
Defined.

Ltac mrun_cb :=
  cbv beta iota zeta delta
    [bind or_else and_then when gets modify ret throw try_catch log
     socket_emit effect peers_has peer_connected peer_call negb andb orb
     on_connect on_error on_stream _createUserAudio _setAudioElementStream
     _addUserAudioElement _remoteBroadcasting
     button_addClass button_removeClass
     with_this with_heap with_game with_pending with_trace
     set_peers set_audioElements set_remoteStreams set_localStreams
     set_talkieButtons set_handles set_streams];
  proj.

(** X13: without an audio input device a connection comes up mute and says
    so.  When the transport connects and [audioSrc] is not set, the button
    is marked connected, a warning is logged and no capture is requested;
    the session keeps no outbound stream, so a later request to enable the
    outbound audio only warns and notifies the user. *)
Theorem connect_without_microphone
    (w : World) (uid : string) (h : nat) (cls : gset string) :
  audioSrc (game w) = None ∨ audioSrc (game w) = Some "" →
  session w uid = Some h →
  localStreams (this w) !! uid = None →
  talkieButtons (this w) !! uid = Some cls →
  ∃ w1, on_connect uid w = (w1, Ret tt) ∧
        pending w1 = pending w ∧
        trace w1 = trace w ++ [Log debug "SimplePeer connect (";
                               Log warn "Audio input source disabled"] ∧
        talkieButtons (this w1) !! uid =
          Some (cls ∪ {["sussuros-peer-connected"]}) ∧
        enableLocalStream uid true w1 =
          (with_trace (fun t =>
             t ++ [Log warn "SUSSURROS.captureErrorAudio"] ++
                  [Notify "SUSSURROS.captureErrorAudio"]) w1, Ret tt).
Proof.
  intros Hsrc Hs Hl Hb. mrun_cb. rewrite Hb. mrun_cb.
  destruct Hsrc as [Hsrc | Hsrc]; rewrite Hsrc; mrun_cb;
    (eexists; split; [reflexivity|]); proj;
    (split; [done|]); (split; [by rewrite <- app_assoc|]);
    (split; [apply lookup_insert_eq|]);
    unfold enableLocalStream; mx; fold_session w uid;
    rewrite (peers_has_true _ _ _ Hs), Hl;
    rewrite bool_decide_eq_false_2 by (by intros [? ?]); mx;
    by rewrite <- !app_assoc.
Qed.

Lemma connect_without_microphone_witness :
  ∃ w1, on_connect "u2" no_microphone = (w1, Ret tt) ∧
        pending w1 = [] ∧
        enableLocalStream "u2" true w1 =
          (with_trace (fun t =>
             t ++ [Log warn "SUSSURROS.captureErrorAudio"] ++
                  [Notify "SUSSURROS.captureErrorAudio"]) w1, Ret tt).
Proof.
  destruct (connect_without_microphone no_microphone "u2" 0 ∅)
    as (w1 & Hrun & Hpd & _ & _ & Hwarn).
  - by left.
  - vm_compute; reflexivity.
  - vm_compute; reflexivity.
  - vm_compute; reflexivity.
  - exists w1. split; [exact Hrun|]. split; [exact Hpd|exact Hwarn].
Defined.

(** X14: what a transport error does depends on the session.  The error is
    logged (as a warning for ERR_DATA_CHANNEL, as an error otherwise); a
    session whose transport still reports connected is kept untouched, a
    session that is not connected is closed, and with no session in the
    table the handler itself throws a TypeError. *)
Theorem transport_error_cases (w : World) (uid code : string) :
  let line := if bool_decide (code = "ERR_DATA_CHANNEL")
              then Log warn "Peer connection closed ("
              else Log error "SimplePeer error (" in
  (∀ h, session w uid = Some h → handle_connected w h = true →
        on_error uid code w = (with_trace (fun t => t ++ [line]) w, Ret tt)) ∧
  (∀ h cls, session w uid = Some h → handle_connected w h = false →
            talkieButtons (this w) !! uid = Some cls →
            on_error uid code w =
              (closed uid cls (with_trace (fun t => t ++ [line]) w), Ret tt)) ∧
  (session w uid = None →
   ∃ e, on_error uid code w =
          (with_trace (fun t => t ++ [line]) w, Throw e)).
Proof.
  intros line. subst line. split; [|split].
  - intros h Hs Hc. unfold on_error. mx.
    destruct (bool_decide (code = "ERR_DATA_CHANNEL")); mx;
      fold_session w uid; rewrite Hs;
      match goal with |- context [handle_connected ?w0 h] =>
        change (handle_connected w0 h) with (handle_connected w h) end;
      by rewrite Hc.
  - intros h cls Hs Hc Hb. unfold on_error. mx.
    destruct (bool_decide (code = "ERR_DATA_CHANNEL")); mx;
      fold_session w uid; rewrite Hs;
      match goal with |- context [handle_connected ?w0 h] =>
        change (handle_connected w0 h) with (handle_connected w h) end;
      rewrite Hc; cbn [negb];
      by rewrite (closePeer_run _ uid cls) by exact Hb.
  - intros Hs. unfold on_error. mx.
    destruct (bool_decide (code = "ERR_DATA_CHANNEL")); mx;
      fold_session w uid; rewrite Hs; by eexists.
Qed.

Lemma transport_error_cases_witness :
  on_error "u2" "ERR_DATA_CHANNEL" Demo.connected_u2 =
    (with_trace (fun t => t ++ [Log warn "Peer connection closed ("])
       Demo.connected_u2, Ret tt) ∧
  session (on_error "u2" "ERR_ICE" Demo.negotiating).1 "u2" = None ∧
  ∃ e, on_error "u3" "ERR_ICE" Demo.negotiating =
         (with_trace (fun t => t ++ [Log error "SimplePeer error ("])
            Demo.negotiating, Throw e).
Proof.
  split; [|split].
  - rewrite (proj1 (transport_error_cases Demo.connected_u2 "u2"
                      "ERR_DATA_CHANNEL") 0)
      by (vm_compute; reflexivity).
    reflexivity.
  - rewrite (proj1 (proj2 (transport_error_cases Demo.negotiating "u2"
                             "ERR_ICE")) 0 ∅)
      by (vm_compute; reflexivity).
    vm_compute. reflexivity.
  - destruct (proj2 (proj2 (transport_error_cases Demo.negotiating "u3"
                              "ERR_ICE")))
      as (e & Hrun); [vm_compute; reflexivity|].
    exists e. exact Hrun.
Defined.

(** ** The socket handler, again *)

(** X15: a broadcast-state message addressed to the local user only moves
    the receiving mark of the sender's button.  The class
    sussuros-stream-receiving is set when the message says broadcasting and
    removed otherwise (a missing flag counts as not broadcasting); the
    tables, the heap, the host and the pending captures are as before.
    When the sender has no button the handler throws. *)
Theorem relay_broadcast_state_marks_button
    (request : SocketMsg) (sender : string) (w : World) :
  action request = "peer-broadcasting" →
  userId request = localUser (game w) →
  (∀ cls, talkieButtons (this w) !! sender = Some cls →
     socketHandler request sender w =
       (with_this (fun t =>
          set_talkieButtons
            (<[sender := if default false (broadcasting request)
                         then cls ∪ {["sussuros-stream-receiving"]}
                         else cls ∖ {["sussuros-stream-receiving"]}]>
               (talkieButtons t)) t)
          (with_trace (fun t => t ++ [Log debug "Socket event:"]) w),
        Ret tt)) ∧
  (talkieButtons (this w) !! sender = None →
   ∃ e, socketHandler request sender w =
          (with_trace (fun t => t ++ [Log debug "Socket event:"]) w,
           Throw e)).
Proof.
  intros Hact Hme.
  assert (Hgo : socketHandler request sender w =
            _remoteBroadcasting sender (broadcasting request)
              (with_trace (fun t => t ++ [Log debug "Socket event:"]) w)).
  { unfold socketHandler. munfold.
    change (localUser (game (with_trace _ w))) with (localUser (game w)).
    rewrite Hact, Hme.
    rewrite (bool_decide_eq_false_2 ("peer-broadcasting" = "peer-signal"))
      by discriminate.
    rewrite (bool_decide_eq_false_2 ("peer-broadcasting" = "peer-close"))
      by discriminate.
    by rewrite !bool_decide_eq_true_2 by done. }
  rewrite Hgo. unfold _remoteBroadcasting. split.
  - intros cls Hb.
    destruct (default false (broadcasting request)); mx; by rewrite Hb.
  - intros Hb.
    destruct (default false (broadcasting request)); mx; rewrite Hb;
      by eexists.
Qed.

Lemma relay_broadcast_state_marks_button_witness :
  button_classes
    (socketHandler {| action := "peer-broadcasting"; userId := "u1";
                      data := None; broadcasting := Some true |} "u2"
                   Demo.start).1 "u2" =
    Some {["sussuros-stream-receiving"]} ∧
  ∃ e, socketHandler {| action := "peer-broadcasting"; userId := "u1";
                        data := None; broadcasting := Some true |} "u9"
                     Demo.start =
         (with_trace (fun t => t ++ [Log debug "Socket event:"]) Demo.start,
          Throw e).
Proof.
  split.
  - rewrite (proj1 (relay_broadcast_state_marks_button
                      {| action := "peer-broadcasting"; userId := "u1";
                         data := None; broadcasting := Some true |} "u2"
                      Demo.start eq_refl eq_refl) ∅)
      by (vm_compute; reflexivity).
    vm_compute. reflexivity.
  - apply (proj2 (relay_broadcast_state_marks_button
                    {| action := "peer-broadcasting"; userId := "u1";
                       data := None; broadcasting := Some true |} "u9"
                    Demo.start eq_refl eq_refl)).
    vm_compute. reflexivity.
Defined.

(** X16: the first signalling message of a remote participant opens the
    session on this side.  A signal message addressed to the local user
    from a sender without a session makes the handler create a responder
    handle for the sender and pass the payload to it, without an exception
    and whether or not the sender has a button. *)
Theorem relay_signal_opens_responder
    (request : SocketMsg) (sender : string) (w : World) :
  action request = "peer-signal" →
  userId request = localUser (game w) →
  session w sender = None →
  ∃ w', socketHandler request sender w = (w', Ret tt) ∧
        session w' sender = Some (nextHandle (heap w)) ∧
        handles (heap w') !! nextHandle (heap w) =
          Some {| initiator := false; connected := false;
                  destroyed := false |} ∧
        trace w' =
          trace w ++ [Log debug "Socket event:"; Render;
                      Transport (nextHandle (heap w))
                        (CallSignal (data request))] ∧
        talkieButtons (this w') = talkieButtons (this w).
Proof.
  intros Hact Hme Hs. unfold socketHandler. munfold.
  change (localUser (game (with_trace _ w))) with (localUser (game w)).
  rewrite Hact, Hme. rewrite !bool_decide_eq_true_2 by done.
  unfold signal, setupPeer. mx. fold_session w sender.
  rewrite (peers_has_false _ _ Hs). mx.
  unfold session at 1. proj. rewrite (JsMapFacts.get_set_eq (V:=nat)).
  eexists. split; [reflexivity|]. proj.
  split; [apply (JsMapFacts.get_set_eq (V:=nat))|].
  split; [apply lookup_insert_eq|].
  split; [by rewrite <- !app_assoc|done].
Qed.

Lemma relay_signal_opens_responder_witness :
  ∃ w', socketHandler {| action := "peer-signal"; userId := "u1";
                         data := Some "offer"; broadcasting := None |} "u9"
                      Demo.start = (w', Ret tt) ∧
        session w' "u9" = Some 0.
Proof.
  destruct (relay_signal_opens_responder
              {| action := "peer-signal"; userId := "u1";
                 data := Some "offer"; broadcasting := None |} "u9"
              Demo.start eq_refl eq_refl)
    as (w' & Hrun & Hs & _); [vm_compute; reflexivity|].
  exists w'. split; [exact Hrun|exact Hs].
Defined.

(** ** Audio elements and the player list *)

(** X17: the inbound stream reaches the audio element in either order.
    Whether the stream event comes first and the audio element is created
    afterwards, or the element exists first and the stream arrives later,
    both run without exception and end with the same [audioElements] and
    [remoteStreams] tables: the element of the participant plays the stream,
    through [srcObject] when the browser has it and through [src] when not. *)
Theorem stream_and_element_commute
    (br : Browser) (w : World) (uid : string) (sid : nat) :
  ∃ w1 w2,
    (on_stream uid sid >> _addUserAudioElement br uid true) w = (w1, Ret tt) ∧
    (_addUserAudioElement br uid true >> on_stream uid sid) w = (w2, Ret tt) ∧
    audioElements (this w1) = audioElements (this w2) ∧
    remoteStreams (this w1) = remoteStreams (this w2) ∧
    remoteStreams (this w1) !! uid = Some sid ∧
    audioElements (this w1) !! uid =
      Some {| hasSrcObject := supportsSrcObject br;
              srcObject := if supportsSrcObject br then Some sid else None;
              src := if supportsSrcObject br then None else Some sid;
              playing := true |}.
Proof.
  destruct br as [sink so]. mrun_cb. cbn [supportsSinkId supportsSrcObject].
  destruct (audioElements (this w) !! uid) as [el|] eqn:Hel;
    destruct (remoteStreams (this w) !! uid) as [old|] eqn:Hold;
    destruct sink, so;
    repeat (progress (mrun_cb;
      rewrite ?lookup_insert_eq, ?Hel, ?Hold,
        ?(bool_decide_eq_true_2 (is_Some (Some _))) by (by eexists);
      rewrite ?(bool_decide_eq_false_2 (is_Some None)) by (by intros [? ?])));
    try destruct (hasSrcObject el);
    repeat (progress (mrun_cb;
      rewrite ?lookup_insert_eq,
        ?(bool_decide_eq_true_2 (is_Some (Some _))) by (by eexists)));
    (eexists _, _; split; [reflexivity|]; split; [reflexivity|]); proj;
    rewrite ?insert_insert_eq, ?lookup_insert_eq; done.
Qed.

(** One row of the player list whose id is a string: the callback returns
    normally, touches only the buttons and the audio elements, keeps every
    button there is, and makes one for the row's user unless that is the
    local user. *)
Lemma renderRow_effect (br : Browser) (r : Row) (w : World) :
  ∃ w', renderRow br r w = (w', Ret tt) ∧
        peers (this w') = peers (this w) ∧
        localStreams (this w') = localStreams (this w) ∧
        remoteStreams (this w') = remoteStreams (this w) ∧
        heap w' = heap w ∧ game w' = game w ∧ pending w' = pending w ∧
        (∀ uid cls, talkieButtons (this w) !! uid = Some cls →
                    talkieButtons (this w') !! uid = Some cls) ∧
        (talkieButtons (this w) !! localUser (game w) = None →
         talkieButtons (this w') !! localUser (game w) = None) ∧
        (∀ uid, rowUserIdString r = Some uid → uid ≠ "" →
                uid ≠ localUser (game w) →
                is_Some (talkieButtons (this w') !! uid)).
Proof.
  unfold renderRow. mx.
  destruct (rowUserIdString r) as [[|a s]|] eqn:Hrow.
  - exists w. repeat split; try done. by intros uid [= <-].
  - set (uid := String a s) in *.
    case_bool_decide as Hme.
    { exists w. repeat split; try done. by intros ? [= <-]. }
    destruct (talkieButtons (this w) !! uid) as [cls|] eqn:Hb.
    + rewrite bool_decide_eq_true_2 by (by eexists). cbn [andb negb].
      destruct (containsButton r).
      * exists w. repeat split; try done.
        intros ? [= <-] _ _. by eexists.
      * unfold _addUserAudioElement, _setAudioElementStream. mx.
        destruct (supportsSinkId br); mx;
          (destruct (remoteStreams (this w) !! uid) eqn:Hr;
           [rewrite bool_decide_eq_true_2 by (by eexists)
           |rewrite bool_decide_eq_false_2 by (by intros [? ?])]);
          repeat (progress (mx; rewrite ?lookup_insert_eq, ?Hr));
          (eexists; split; [reflexivity|]); proj;
          repeat split; try done;
          intros ? [= <-] _ _; by eexists.
    + rewrite bool_decide_eq_false_2 by (by intros [? ?]). cbn [andb negb].
      unfold _addUserAudioElement, _setAudioElementStream. mx.
      destruct (supportsSinkId br); mx;
        (destruct (remoteStreams (this w) !! uid) eqn:Hr;
         [rewrite bool_decide_eq_true_2 by (by eexists)
         |rewrite bool_decide_eq_false_2 by (by intros [? ?])]);
        repeat (progress (mx; rewrite ?lookup_insert_eq, ?Hr));
        (eexists; split; [reflexivity|]); proj;
        repeat split; try done;
        try (intros uid' cls' Hc;
             rewrite lookup_insert_ne by congruence; exact Hc);
        try (intros Hnone; by rewrite lookup_insert_ne by congruence);
        try (intros ? [= <-] _ _; rewrite lookup_insert_eq; by eexists).
  - exists w. repeat split; try done.
Qed.

(** X18: rendering the player list gives every listed participant a button
    and never the local user, for rows whose user id reaches the callback
    as a string (see [Row]).  [_onRenderPlayerList] returns normally for any
    list of such rows; afterwards each row's user other than the local user
    has a button under its id, the buttons that existed keep their classes
    (the connection marks survive a re-render), the local user still has
    none, and sessions, streams, heap and host settings are untouched. *)
Theorem render_gives_buttons (br : Browser) (rows : list Row) (w : World) :
  ∃ w', _onRenderPlayerList br rows w = (w', Ret tt) ∧
        (∀ r uid, r ∈ rows → rowUserIdString r = Some uid → uid ≠ "" →
                  uid ≠ localUser (game w) →
                  is_Some (talkieButtons (this w') !! uid)) ∧
        (∀ uid cls, talkieButtons (this w) !! uid = Some cls →
                    talkieButtons (this w') !! uid = Some cls) ∧
        (talkieButtons (this w) !! localUser (game w) = None →
         talkieButtons (this w') !! localUser (game w) = None) ∧
        peers (this w') = peers (this w) ∧
        localStreams (this w') = localStreams (this w) ∧
        remoteStreams (this w') = remoteStreams (this w) ∧
        heap w' = heap w ∧ game w' = game w ∧ pending w' = pending w.
Proof.
  revert w. induction rows as [|r rows IH]; intros w.
  - exists w. repeat split; try done. intros r uid Hin.
    by apply elem_of_nil in Hin.
  - cbn [_onRenderPlayerList]. unfold bind.
    destruct (renderRow_effect br r w)
      as (w1 & Hrun & Hp & Hl & Hr & Hh & Hg & Hpd & Hkeep & Hme & Hrow).
    rewrite Hrun.
    destruct (IH w1)
      as (w' & Hrun' & Hrows' & Hkeep' & Hme' & Hp' & Hl' & Hr' & Hh' & Hg'
             & Hpd').
    exists w'. split; [exact Hrun'|].
    rewrite Hg in *.
    split; [|split; [|split]].
    + intros r0 uid Hin Hid Hne Hnme.
      apply elem_of_cons in Hin as [->|Hin].
      * destruct (Hrow uid Hid Hne Hnme) as [cls Hcls].
        exists cls. by apply Hkeep'.
      * by apply (Hrows' r0).
    + intros uid cls Hc. by apply Hkeep', Hkeep.
    + intros Hnone. by apply Hme', Hme.
    + by rewrite Hp', Hl', Hr', Hh', Hg', Hpd'.
Qed.

(** ** The button and the context menu *)

Lemma connect_guard (w : World) (uid : string) :
  or_else (do present <- peers_has uid; ret (negb present))
          (do c <- peer_connected uid; ret (negb c)) w =
    (w, Ret (negb (from_option (handle_connected w) false (session w uid)))).
Proof.
  mx. destruct (session w uid) as [h|] eqn:Hs.
  - rewrite (peers_has_true _ _ _ Hs). mx. by rewrite Hs.
  - by rewrite (peers_has_false _ _ Hs).
Qed.

(** X19: a click on a participant's button never ends in the "Peer already
    exists" warning of [initPeer].  Without a session, or with one whose
    transport is not connected, the click sets up a new initiator handle;
    with a connected session it toggles the outbound audio in toggle mode
    and does nothing at all in push-to-talk mode. *)
Theorem click_connects_or_toggles (w : World) (uid : string) :
  (¬ (∃ h, session w uid = Some h ∧ handle_connected w h = true) →
   button_click uid w = setupPeer uid true w) ∧
  (∀ h, session w uid = Some h → handle_connected w h = true →
        button_click uid w =
          if toggleBroadcastSetting (game w) then toggleLocalStream uid w
          else (w, Ret tt)).
Proof.
  split.
  - intros Hno. unfold button_click, bind at 1. rewrite connect_guard.
    destruct (session w uid) as [h|] eqn:Hs; cbn.
    + destruct (handle_connected w h) eqn:Hc; cbn.
      * exfalso. apply Hno. by exists h.
      * by apply (initPeer_not_connected _ _ h).
    + by apply initPeer_absent.
  - intros h Hs Hc. unfold button_click, bind at 1. rewrite connect_guard.
    rewrite Hs. cbn. rewrite Hc. cbn. mx.
    by destruct (toggleBroadcastSetting (game w)).
Qed.

Lemma click_connects_or_toggles_witness :
  button_click "u3" Demo.connected_u2 = setupPeer "u3" true Demo.connected_u2 ∧
  button_click "u2" Demo.connected_u2 = (Demo.connected_u2, Ret tt).
Proof.
  split.
  - apply (proj1 (click_connects_or_toggles Demo.connected_u2 "u3")).
    intros (h & Hs & _). vm_compute in Hs. discriminate.
  - rewrite (proj2 (click_connects_or_toggles Demo.connected_u2 "u2") 0)
      by (vm_compute; reflexivity).
    reflexivity.
Defined.

(** X20: the context menu offers exactly one of its two entries.  In every
    state the conditions of "connect" and of "transmit" are evaluated
    without exception and without effect, and one is the negation of the
    other; the "connect" entry, when chosen, sets up a new initiator handle
    if its condition still holds and does nothing otherwise, so it never
    reaches the warning of [initPeer] either; and the "transmit" entry does
    in both modes what [toggleLocalStream] does. *)
Theorem context_menu_offers_one (w : World) (uid : string) :
  ∃ b, connectCondition uid w = (w, Ret b) ∧
       transmitCondition uid w = (w, Ret (negb b)) ∧
       connectCallback uid w =
         (if b then setupPeer uid true w else (w, Ret tt)) ∧
       transmitCallback uid w = toggleLocalStream uid w.
Proof.
  exists (negb (from_option (handle_connected w) false (session w uid))).
  assert (Hc : connectCondition uid w =
            (w, Ret (negb (from_option (handle_connected w) false
                             (session w uid)))))
    by apply connect_guard.
  split; [exact Hc|]. split.
  - unfold transmitCondition. mx.
    destruct (session w uid) as [h|] eqn:Hs.
    + rewrite (peers_has_true _ _ _ Hs). mx. rewrite Hs. cbn.
      by destruct (handle_connected w h).
    + by rewrite (peers_has_false _ _ Hs).
  - split.
    + unfold connectCallback, bind at 1. rewrite Hc.
      destruct (session w uid) as [h|] eqn:Hs; cbn.
      * destruct (handle_connected w h) eqn:Hcon; cbn; [reflexivity|].
        by apply (initPeer_not_connected _ _ h).
      * by apply initPeer_absent.
    + unfold transmitCallback, bind at 1, gets.
      by destruct (toggleBroadcastSetting (game w)).
Qed.

(** ** The session table keeps its shape *)

Lemma JsMap_set_keys {V} (k : string) (v : V) (m : list (string * V)) x :
  x ∈ JsMap.keys (JsMap.set k v m) → x = k ∨ x ∈ JsMap.keys m.
Proof.
  unfold JsMap.keys. induction m as [|[k' v'] m IH]; simpl.
  - intros H. apply list_elem_of_singleton in H. by left.
  - destruct (decide (k = k')) as [->|Hne]; simpl.
    + intros H. by right.
    + rewrite !elem_of_cons. intros [->|H]; [right; by left|].
      destruct (IH H); [by left|right; by right].
Qed.

Lemma JsMap_set_values {V} (k : string) (v : V) (m : list (string * V)) x :
  x ∈ (JsMap.set k v m).*2 → x = v ∨ x ∈ m.*2.
Proof.
  induction m as [|[k' v'] m IH]; simpl.
  - intros H. apply list_elem_of_singleton in H. by left.
  - destruct (decide (k = k')) as [->|Hne]; simpl.
    + rewrite !elem_of_cons. intros [->|H]; [by left|right; by right].
    + rewrite !elem_of_cons. intros [->|H]; [right; by left|].
      destruct (IH H); [by left|right; by right].
Qed.

Lemma JsMap_set_NoDup_keys {V} (k : string) (v : V) (m : list (string * V)) :
  NoDup (JsMap.keys m) → NoDup (JsMap.keys (JsMap.set k v m)).
Proof.
  unfold JsMap.keys. induction m as [|[k' v'] m IH]; simpl.
  - intros _. apply NoDup_singleton.
  - rewrite NoDup_cons. intros [Hk Hnd].
    destruct (decide (k = k')) as [->|Hne]; simpl.
    + by apply NoDup_cons.
    + apply NoDup_cons. split; [|by apply IH].
      intros Hin. apply (JsMap_set_keys k v m) in Hin as [->|Hin]; done.
Qed.

Lemma JsMap_set_NoDup_values {V} (k : string) (v : V) (m : list (string * V)) :
  v ∉ m.*2 → NoDup m.*2 → NoDup (JsMap.set k v m).*2.
Proof.
  induction m as [|[k' v'] m IH]; simpl.
  - intros _ _. apply NoDup_singleton.
  - rewrite not_elem_of_cons, NoDup_cons. intros [Hv Hin] [Hv' Hnd].
    destruct (decide (k = k')) as [->|Hne]; simpl.
    + by apply NoDup_cons.
    + apply NoDup_cons. split; [|by apply IH].
      intros Hx. apply (JsMap_set_values k v m) in Hx as [->|Hx]; done.
Qed.

Lemma JsMap_delete_sub {V} (k : string) (m : list (string * V)) :
  sublist (JsMap.delete k m) m.
Proof.
  induction m as [|[k' v'] m IH]; simpl; [done|].
  destruct (decide (k = k')); [by apply sublist_cons|by apply sublist_skip].
Qed.

Lemma table_ok_delete (w w' : World) (uid : string) :
  peers (this w') = JsMap.delete uid (peers (this w)) →
  nextHandle (heap w') = nextHandle (heap w) →
  (∀ h, is_Some (handles (heap w) !! h) → is_Some (handles (heap w') !! h)) →
  table_ok w → table_ok w'.
Proof.
  intros Hp Hn Hh (Hk & Hv & Hin). unfold table_ok. rewrite Hp, Hn.
  pose proof (JsMap_delete_sub uid (peers (this w))) as Hsub.
  unfold JsMap.keys in *.
  split; [|split].
  - apply (sublist_NoDup _ (peers (this w)).*1); [exact Hk|].
    by apply fmap_sublist.
  - apply (sublist_NoDup _ (peers (this w)).*2); [exact Hv|].
    by apply fmap_sublist.
  - intros h Hx.
    assert (Hx' : h ∈ (peers (this w)).*2).
    { apply (elem_of_sublist _ _ _ Hx). by apply fmap_sublist. }
    destruct (Hin h Hx') as [Hlt Hsome]. split; [done|by apply Hh].
Qed.

Lemma table_ok_same (w w' : World) :
  peers (this w') = peers (this w) →
  nextHandle (heap w') = nextHandle (heap w) →
  (∀ h, is_Some (handles (heap w) !! h) → is_Some (handles (heap w') !! h)) →
  table_ok w → table_ok w'.
Proof.
  intros Hp Hn Hh (Hk & Hv & Hin). unfold table_ok. rewrite Hp, Hn.
  split; [done|split; [done|]].
  intros h Hx. destruct (Hin h Hx) as [Hlt Hsome]. split; [done|by apply Hh].
Qed.

Lemma table_ok_setupPeer (w : World) (uid : string) (i : bool) :
  table_ok w → table_ok (setupPeer uid i w).1.
Proof.
  intros (Hk & Hv & Hin). unfold setupPeer, table_ok. mx.
  assert (Hfresh : nextHandle (heap w) ∉ (peers (this w)).*2).
  { intros Hx. destruct (Hin _ Hx) as [Hlt _]. lia. }
  split; [by apply JsMap_set_NoDup_keys|].
  split; [by apply JsMap_set_NoDup_values|].
  intros h Hx. apply JsMap_set_values in Hx as [->|Hx].
  - split; [lia|]. rewrite lookup_insert_eq. by eexists.
  - destruct (Hin h Hx) as [Hlt Hsome]. split; [lia|].
    rewrite lookup_insert_ne by lia. done.
Qed.

Lemma closePeer_table (w : World) (uid : string) :
  (peers (this (closePeer uid w).1) = peers (this w) ∨
   peers (this (closePeer uid w).1) = JsMap.delete uid (peers (this w))) ∧
  nextHandle (heap (closePeer uid w).1) = nextHandle (heap w) ∧
  (∀ h, is_Some (handles (heap w) !! h) →
        is_Some (handles (heap (closePeer uid w).1) !! h)).
Proof.
  destruct (talkieButtons (this w) !! uid) as [cls|] eqn:Hb.
  - rewrite (closePeer_run _ _ cls Hb). cbn.
    split; [by right|]. split; [done|].
    intros h Hsome. destruct (session w uid) as [h0|]; [|done].
    rewrite lookup_alter. destruct (decide (h0 = h)); [|done].
    subst. by apply fmap_is_Some.
  - unfold closePeer. mx.
    destruct (remoteStreams (this w) !! uid); mx;
      (destruct (localStreams (this w) !! uid); mx);
      rewrite Hb; proj; (split; [by left|]); done.
Qed.

Lemma table_ok_closePeer (w : World) (uid : string) :
  table_ok w → table_ok (closePeer uid w).1.
Proof.
  intros Hok. destruct (closePeer_table w uid) as ([Hp|Hp] & Hn & Hh).
  - by apply (table_ok_same w).
  - by apply (table_ok_delete w _ uid).
Qed.

Lemma table_ok_forEach (ks : list string) :
  ∀ w, table_ok w → table_ok (forEach_peers ks closeOne w).1.
Proof.
  induction ks as [|k ks IH]; intros w Hok; [done|].
  rewrite forEach_peers_cons.
  destruct (JsMap.has k (peers (this w))); [|by apply IH].
  assert (Hstep : table_ok (closeOne k w).1).
  { unfold closeOne. munfold.
    match goal with |- context [closePeer k ?w0] =>
      pose proof (table_ok_closePeer w0 k Hok) as H0;
      destruct (closePeer k w0) as [w1 [[]|e]]; exact H0 end. }
  destruct (closeOne k w) as [w1 [[]|e]]; [by apply IH|exact Hstep].
Qed.

(** X21: the session table stays a table of distinct, existing handles.
    If no participant appears twice in [peers], no handle is shared by two
    participants, and every handle in the table is an object of the heap
    below the allocation counter, then the same holds after [initPeer],
    [signal], [closePeer] and [closeAllPeers], however they end; in
    particular the handle a new session gets is none of those in the
    table. *)
Theorem table_stays_well_formed (w : World) (uid : string)
    (d : option string) :
  table_ok w →
  table_ok (initPeer uid w).1 ∧
  table_ok (signal uid d w).1 ∧
  table_ok (closePeer uid w).1 ∧
  table_ok (closeAllPeers w).1 ∧
  (∀ other h, session w other = Some h → h ≠ nextHandle (heap w)).
Proof.
  intros Hok. split; [|split; [|split; [|split]]].
  - destruct (session w uid) as [h|] eqn:Hs.
    + destruct (handle_connected w h) eqn:Hc.
      * by rewrite (initPeer_connected _ _ h Hs Hc).
      * rewrite (initPeer_not_connected _ _ h Hs Hc).
        by apply table_ok_setupPeer.
    + rewrite (initPeer_absent _ _ Hs). by apply table_ok_setupPeer.
  - unfold signal. mx. destruct (session w uid) as [h|] eqn:Hs.
    + rewrite (peers_has_true _ _ _ Hs). mx. by rewrite Hs.
    + rewrite (peers_has_false _ _ Hs). mx.
      pose proof (table_ok_setupPeer w uid false Hok) as Hset.
      destruct (setupPeer uid false w) as [w1 [[]|e]]; [|exact Hset].
      cbn in Hset. destruct (session w1 uid); exact Hset.
  - by apply table_ok_closePeer.
  - unfold closeAllPeers. munfold. by apply table_ok_forEach.
  - intros other h Hs ->. destruct Hok as (_ & _ & Hin).
    destruct (Hin (nextHandle (heap w))) as [Hlt _]; [|lia].
    by apply (session_handle_in _ other).
Qed.

Lemma table_stays_well_formed_witness :
  table_ok (initPeer "u2" Demo.negotiating).1 ∧
  table_ok (closePeer "u2" Demo.negotiating).1.
Proof.
  assert (Hok : table_ok Demo.negotiating).
  { split; [|split].
    - apply (NoDup_singleton "u2").
    - apply (NoDup_singleton 0).
    - intros h Hin. change (h ∈ [0]) in Hin.
      apply list_elem_of_singleton in Hin as ->.
      split; [vm_compute; lia|].
      apply (bool_decide_unpack _). vm_compute. exact I. }
  destruct (table_stays_well_formed Demo.negotiating "u2" None Hok)
    as (Hinit & _ & Hclose & _).
  split; [exact Hinit|exact Hclose].
Defined.

(** ** A connection that finds a captured stream *)

(** X22: a connection reuses a stream that is already captured.  When the
    transport connects and [localStreams] already has a stream for the
    participant (one a late capture left behind), no new capture is
    requested: the cached stream is handed to the handle of the session
    with [addStream] and the outbound audio is disabled. *)
Theorem connect_reuses_cached_stream
    (w : World) (uid src : string) (h sid : nat)
    (tracks : list MediaStreamTrack) :
  audioSrc (game w) = Some src → src ≠ "" →
  session w uid = Some h →
  localStreams (this w) !! uid = Some sid →
  streams (heap w) !! sid = Some tracks →
  is_Some (talkieButtons (this w) !! uid) →
  ∃ w', on_connect uid w = (w', Ret tt) ∧
        pending w' = pending w ∧
        localStreams (this w') !! uid = Some sid ∧
        Transport h (CallAddStream sid) ∈ trace w' ∧
        isLocalStreamEnabled uid w' = (w', Ret false).
Proof.
  intros Hsrc Hne Hs Hl Hst [cls Hb].
  destruct src as [|a s]; [done|].
  unfold on_connect, _createUserAudio, attachLocalStream.
  mx. rewrite Hb. mx. rewrite Hsrc. mx. rewrite Hl.
  rewrite bool_decide_eq_true_2 by (by eexists). mx.
  fold_session w uid. rewrite Hs. mx. rewrite ?Hl. cbn [default from_option id].
  match goal with |- context [enableLocalStream uid false ?w0] =>
    destruct (enableLocalStream_effect w0 uid false h sid tracks
                (cls ∪ {["sussuros-peer-connected"]}))
      as (w1 & Hrun & _ & Hls & _ & _ & _ & Hpd & _
             & (tracks' & Hst' & _ & Hoff) & Htr) end.
  - exact Hs.
  - exact Hl.
  - exact Hst.
  - by right.
  - cbn. apply lookup_insert_eq.
  - rewrite Hrun. exists w1. split; [reflexivity|].
    split; [by rewrite Hpd|].
    split; [by rewrite Hls|].
    split; [apply Htr; cbn; apply elem_of_app; right; by left|].
    unfold isLocalStreamEnabled, gets. rewrite Hls. cbn. rewrite Hl.
    unfold getTracks. rewrite Hst'. cbn. by rewrite Hoff.
Qed.

Lemma connect_reuses_cached_stream_witness :
  ∃ w', on_connect "u2" reconnecting = (w', Ret tt) ∧
        pending w' = [] ∧
        localStreams (this w') !! "u2" = Some 0 ∧
        Transport 1 (CallAddStream 0) ∈ trace w' ∧
        isLocalStreamEnabled "u2" w' = (w', Ret false).
Proof.
  apply (connect_reuses_cached_stream reconnecting "u2" "default" 1 0
           [Demo.mic]).
  - vm_compute; reflexivity.
  - discriminate.
  - vm_compute; reflexivity.
  - vm_compute; reflexivity.
  - vm_compute; reflexivity.
  - apply (bool_decide_unpack _). vm_compute. exact I.
Defined.
